(** * Azure CLI, sql command module: argument aggregation, size conversion
      and the post-parse validators

    A shallow embedding of the logic of
    [azure/cli/command_modules/sql/_validators.py]
    ([create_args_for_complex_type], [validate_subnet],
    [validate_managed_instance_storage_size]) and of [SizeWithUnitConverter]
    in [_params.py], with the properties of the module stated over it.

    The code is read with the semantics of Python 3: [/] is true division and
    yields a float, a float is an IEEE 754 binary64 number, [int] is
    unbounded.  Command-line text is ASCII, so [str.isdigit] on a character
    is the test ['0' <= c <= '9']. *)

From Stdlib Require Import ZArith List String Ascii Bool Lia Permutation Sorted.
From Stdlib Require Import Floats.SpecFloat.
Import ListNotations.

Set Warnings "-register-all".
Local Open Scope string_scope.

(** ** Python values *)

(** The values an argparse namespace of this module holds: [None], booleans,
    integers, floats, strings, lists, and SDK model objects.  A model object
    is kept as the constructor call that made it: the class and the keyword
    arguments, in the order they were passed.  A float is an IEEE 754
    binary64 number, in the standard library's specification of them. *)
Inductive pyval : Type :=
| PNone
| PBool (b : bool)
| PInt (n : Z)
| PFloat (f : spec_float)
| PStr (s : string)
| PList (items : list pyval)
| PObj (class_name : string) (kwargs : list (string * pyval)).

(** [bool(v)]. *)
Definition truthy (v : pyval) : bool :=
  match v with
  | PNone => false
  | PBool b => b
  | PInt n => negb (Z.eqb n 0)
  | PFloat (S754_zero _) => false
  | PFloat _ => true
  | PStr EmptyString => false
  | PStr _ => true
  | PList [] => false
  | PList _ => true
  | PObj _ _ => true
  end.

(** The exceptions that the modelled code can raise.  [CLIError] is
    [azure.cli.core.util.CLIError], the usage error shown to the user;
    [ValueError] raised by an argparse [type=] callable is what argparse
    reports as an invalid argument. *)
Inductive exn : Type :=
| KeyError
| ValueError
| TypeError
| AttributeError
| ZeroDivisionError
| OverflowError
| CLIError.

(** ** Python dictionaries

    A [dict] keeps its keys in insertion order and each key once.  Assigning
    to a key that is present replaces the value in place; assigning to a new
    key appends. *)
Module PyDict.

Section Dict.
Context {V : Type}.

Definition t : Type := list (string * V).

Fixpoint lookup (d : t) (k : string) : option V :=
  match d with
  | [] => None
  | (k', v) :: rest => if String.eqb k' k then Some v else lookup rest k
  end.

Definition mem (d : t) (k : string) : bool :=
  match lookup d k with Some _ => true | None => false end.

Fixpoint update (d : t) (k : string) (v : V) : t :=
  match d with
  | [] => [(k, v)]
  | (k', v') :: rest =>
      if String.eqb k' k then (k', v) :: rest else (k', v') :: update rest k v
  end.

Fixpoint delete (d : t) (k : string) : t :=
  match d with
  | [] => []
  | (k', v') :: rest =>
      if String.eqb k' k then rest else (k', v') :: delete rest k
  end.

Definition keys (d : t) : list string := map fst d.

Definition values (d : t) : list V := map snd d.

(** [dict(pairs)]: later pairs overwrite earlier ones. *)
Definition of_pairs (pairs : list (string * V)) : t :=
  fold_left (fun d kv => update d (fst kv) (snd kv)) pairs [].

End Dict.

Arguments t : clear implicits.

End PyDict.

(** Pairwise distinct strings, as a test. *)
Fixpoint distinct (l : list string) : bool :=
  match l with
  | [] => true
  | k :: rest => negb (existsb (String.eqb k) rest) && distinct rest
  end.

(** A list of pairs is a dictionary when no key occurs twice. *)
Definition well_formed {V : Type} (d : PyDict.t V) : bool :=
  distinct (PyDict.keys d).

(** ** The namespace and the effects on it

    [vars(namespace)] is a dictionary from attribute name to value.  A
    validator mutates the namespace it is given and may raise; the caller
    sees the mutations made before the raise, so a computation returns an
    outcome together with the namespace as it then is. *)
Definition namespace : Type := PyDict.t pyval.

Definition M (A : Type) : Type := namespace -> (exn + A) * namespace.

Definition ret {A : Type} (a : A) : M A := fun ns => (inr a, ns).

Definition raise {A : Type} (e : exn) : M A := fun ns => (inl e, ns).

Definition bind {A B : Type} (c : M A) (k : A -> M B) : M B :=
  fun ns =>
    match c ns with
    | (inr a, ns') => k a ns'
    | (inl e, ns') => (inl e, ns')
    end.

Notation "x <- c ;; k" := (bind c (fun x => k))
  (at level 61, c at next level, right associativity).
Notation "c ;;; k" := (bind c (fun _ => k))
  (at level 61, right associativity).

(** [vars(namespace)] *)
Definition vars : M namespace := fun ns => (inr ns, ns).

(** [getattr(namespace, k)], also written [namespace.k] *)
Definition getattr (k : string) : M pyval :=
  fun ns =>
    match PyDict.lookup ns k with
    | Some v => (inr v, ns)
    | None => (inl AttributeError, ns)
    end.

(** [setattr(namespace, k, v)] *)
Definition setattr (k : string) (v : pyval) : M unit :=
  fun ns => (inr tt, PyDict.update ns k v).

(** [delattr(namespace, k)] *)
Definition delattr (k : string) : M unit :=
  fun ns =>
    if PyDict.mem ns k then (inr tt, PyDict.delete ns k)
    else (inl AttributeError, ns).

(** [d[k]] on a dictionary that is not the namespace. *)
Definition subscript {V : Type} (d : PyDict.t V) (k : string) : M V :=
  match PyDict.lookup d k with
  | Some v => ret v
  | None => raise KeyError
  end.

(** [for x in l: body(x)] *)
Fixpoint for_each {A : Type} (l : list A) (body : A -> M unit) : M unit :=
  match l with
  | [] => ret tt
  | x :: rest => body x ;;; for_each rest body
  end.

(** [[f(x) for x in l]], evaluated left to right. *)
Fixpoint comprehension {A B : Type} (f : A -> M B) (l : list A) : M (list B) :=
  match l with
  | [] => ret []
  | x :: rest => y <- f x ;; ys <- comprehension f rest ;; ret (y :: ys)
  end.

(** ** The complex-argument aggregator *)

(** Lifting a computation that does not touch the namespace. *)
Definition lift {A : Type} (c : exn + A) : M A :=
  fun ns => (c, ns).

(** What the aggregator uses of an SDK model class: its name, its
    [_validation] table, the per-property documentation that
    [knack.introspection.option_descriptions] extracts from it, and its
    constructor.  The model classes belong to the SDK, so the constructor
    is a parameter: [init] takes the keyword arguments of the call and
    gives the object built, or the exception raised. *)
Record model_class : Type := {
  model_name : string;
  _validation : PyDict.t (PyDict.t pyval);
  option_descriptions : PyDict.t string;
  init : PyDict.t pyval -> exn + pyval
}.

(** The call of [model_type] with [properties] as its keyword arguments:
    the model, or the exception that the constructor raises. *)
Definition construct (model_type : model_class) (properties : PyDict.t pyval)
  : exn + pyval :=
  init model_type properties.

(** An entry of [arguments]: a property name, or a tuple
    [(property_name, property_key)] giving the flag a name of its own. *)
Inductive argument : Type :=
| Arg (name : string)
| ArgPair (property_name property_key : string).

Definition property_name_of (a : argument) : string :=
  match a with Arg n => n | ArgPair p _ => p end.

Definition property_key_of (a : argument) : string :=
  match a with Arg n => n | ArgPair _ k => k end.

(** One call of [arg_ctx.extra]. *)
Record extra_argument : Type := {
  extra_dest : string;
  extra_required : pyval;
  extra_options_list : list string;
  extra_arg_group : option string;
  extra_help : option string
}.

(** [s.replace('_', '-')] *)
Fixpoint replace_underscores (s : string) : string :=
  match s with
  | EmptyString => EmptyString
  | String c rest =>
      String (if Ascii.eqb c "_"%char then "-"%char else c) (replace_underscores rest)
  end.

(** [_expansion_validator_impl], the validator that
    [get_complex_argument_processor] returns.  The calls of [logger.debug]
    have no effect on the namespace and are left out.  An exception of the
    constructor leaves the validator before the assignment and before the
    loop that deletes the flags. *)
Definition _expansion_validator_impl
  (model_properties : PyDict.t string) (assigned_arg : string)
  (model_type : model_class) : M unit :=
  ns <- vars ;;
  let matched_keys :=
    filter (fun k => PyDict.mem model_properties k) (PyDict.keys ns) in
  pairs <- comprehension
             (fun k => p <- subscript model_properties k ;;
                       v <- getattr k ;;
                       ret (p, v))
             matched_keys ;;
  let properties := PyDict.of_pairs pairs in
  (if existsb truthy (PyDict.values properties)
   then model <- lift (construct model_type properties) ;;
        setattr assigned_arg model
   else ret tt) ;;;
  for_each matched_keys delattr.

Definition get_complex_argument_processor
  (model_properties : PyDict.t string) (assigned_arg : string)
  (model_type : model_class) : M unit :=
  _expansion_validator_impl model_properties assigned_arg model_type.

(** The body of the loop over [arguments]: the flag registered for one entry. *)
Definition extra_for (model_type : model_class) (arg_group : option string)
  (arg : argument) : extra_argument :=
  let property_name := property_name_of arg in
  let property_key := property_key_of arg in
  let required :=
    match PyDict.lookup (_validation model_type) property_name with
    | Some validation =>
        match validation with
        | [] => PBool false
        | _ => match PyDict.lookup validation "required" with
               | Some r => r
               | None => PBool false
               end
        end
    | None => PBool false
    end in
  {| extra_dest := property_key;
     extra_required := required;
     extra_options_list := ["--" ++ replace_underscores property_key];
     extra_arg_group := arg_group;
     extra_help := PyDict.lookup (option_descriptions model_type) property_name |}.

(** [model_properties] after the loop: flag key to property name. *)
Definition model_properties_of (arguments : list argument) : PyDict.t string :=
  fold_left
    (fun mp arg => PyDict.update mp (property_key_of arg) (property_name_of arg))
    arguments [].

(** The hidden destination argument registered by [arg_ctx.argument]. *)
Record hidden_argument : Type := {
  hidden_dest : string;
  hidden_options_list : list string;
  hidden_validator : M unit
}.

(** [dest.upper()] on ASCII text. *)
Definition upper_char (c : ascii) : ascii :=
  let n := nat_of_ascii c in
  if (Nat.leb 97 n && Nat.leb n 122)%bool then ascii_of_nat (n - 32) else c.

Fixpoint upper (s : string) : string :=
  match s with
  | EmptyString => EmptyString
  | String c rest => String (upper_char c) (upper rest)
  end.

(** [create_args_for_complex_type]: the registrations it makes on
    [arg_ctx], in order; the hidden one only when [dest] is not empty. *)
Definition create_args_for_complex_type
  (dest : string) (model_type : model_class) (arguments : list argument)
  (arg_group : option string) : list extra_argument * option hidden_argument :=
  let model_properties := model_properties_of arguments in
  (map (extra_for model_type arg_group) arguments,
   match dest with
   | EmptyString => None
   | _ => Some {| hidden_dest := dest;
                  hidden_options_list := ["--__" ++ upper dest];
                  hidden_validator :=
                    get_complex_argument_processor model_properties dest model_type |}
   end).

(** ** Python arithmetic, as far as the module uses it *)

(** Binary64: 53 bits of precision, exponents below 1024. *)
Definition prec : Z := 53.
Definition emax : Z := 1024.

(** [float(n)] for an int: the nearest float, ties to even; an int beyond
    the range of floats raises. *)
Definition float_of_int (n : Z) : exn + spec_float :=
  match binary_normalize prec emax n 0 false with
  | S754_infinity _ => inl OverflowError
  | f => inr f
  end.

(** The float an arithmetic operator sees in a numeric operand. *)
Definition as_float (v : pyval) : exn + spec_float :=
  match v with
  | PFloat f => inr f
  | PInt n => float_of_int n
  | PBool b => float_of_int (if b then 1 else 0)
  | _ => inl TypeError
  end.

(** [a / b].  Always a float.  Two ints are divided as the floats they
    convert to, which is what CPython computes whenever both are below 2^53
    in magnitude, as every multiplier of this module is. *)
Definition truediv (a b : pyval) : exn + spec_float :=
  match as_float a with
  | inl e => inl e
  | inr x =>
      match as_float b with
      | inl e => inl e
      | inr (S754_zero _) => inl ZeroDivisionError
      | inr y => inr (SFdiv prec emax x y)
      end
  end.

(** [x * v] for a float [x]. *)
Definition float_mul (x : spec_float) (v : pyval) : exn + spec_float :=
  match as_float v with
  | inl e => inl e
  | inr y => inr (SFmul prec emax x y)
  end.

(** [int(f)] for a float: truncation toward zero. *)
Definition int_of_float (f : spec_float) : exn + Z :=
  match f with
  | S754_zero _ => inr 0%Z
  | S754_nan => inl ValueError
  | S754_infinity _ => inl OverflowError
  | S754_finite s m e =>
      let a := Z.shiftl (Zpos m) e in
      inr (if s then Z.opp a else a)
  end.

(** [x % d] for an int [d > 0].  On ints the result has the sign of [d];
    on a float it is [fmod] moved to the sign of [d].  [None], lists and
    model objects have no [%].  On a string [%] is formatting, which raises
    [TypeError] unless the string holds a conversion specifier; no flag of
    the module puts a string where [%] is applied. *)
Definition py_mod (x : pyval) (d : Z) : exn + pyval :=
  match x with
  | PInt n => inr (PInt (n mod d))
  | PBool b => inr (PInt ((if b then 1 else 0) mod d))
  | PFloat (S754_finite s m e) =>
      let r := if (0 <=? e)%Z then ((Zpos m * 2 ^ e) mod d)%Z
               else (Zpos m mod (d * 2 ^ (- e)))%Z in
      let e' := Z.min e 0 in
      if (r =? 0)%Z then inr (PFloat (S754_zero false))
      else if s then inr (PFloat (binary_normalize prec emax (d * 2 ^ (- e') - r) e' false))
      else inr (PFloat (binary_normalize prec emax r e' false))
  | PFloat (S754_zero _) => inr (PFloat (S754_zero false))
  | PFloat _ => inr (PFloat S754_nan)
  | _ => inl TypeError
  end.

(** [v == 0] *)
Definition py_eq_zero (v : pyval) : bool :=
  match v with
  | PInt n => (n =? 0)%Z
  | PBool b => negb b
  | PFloat (S754_zero _) => true
  | _ => false
  end.

(** ** Strings *)

(** [str.isdigit] on an ASCII character. *)
Definition isdigit (c : ascii) : bool :=
  let n := nat_of_ascii c in (Nat.leb 48 n && Nat.leb n 57)%bool.

(** [''.join(itertools.takewhile(pred, s))] *)
Fixpoint takewhile (pred : ascii -> bool) (s : string) : string :=
  match s with
  | EmptyString => EmptyString
  | String c rest => if pred c then String c (takewhile pred rest) else EmptyString
  end.

(** [s[n:]] *)
Fixpoint slice_from (n : nat) (s : string) : string :=
  match n, s with
  | O, _ => s
  | S n', String _ rest => slice_from n' rest
  | S _, EmptyString => EmptyString
  end.

Definition digit_value (c : ascii) : Z := Z.of_nat (nat_of_ascii c - 48).

Fixpoint decimal_value (acc : Z) (s : string) : Z :=
  match s with
  | EmptyString => acc
  | String c rest => decimal_value (10 * acc + digit_value c) rest
  end.

Fixpoint all_digits (s : string) : bool :=
  match s with
  | EmptyString => true
  | String c rest => isdigit c && all_digits rest
  end.

(** [int(s)] for text made of decimal digits (leading zeros allowed): its
    value; [ValueError] on the empty string and on any other character.
    The language puts no bound on the length of the text. *)
Definition int_of_str (s : string) : exn + Z :=
  match s with
  | EmptyString => inl ValueError
  | _ => if all_digits s then inr (decimal_value 0 s) else inl ValueError
  end.

(** ** The size converter *)

(** The [result_type] of a converter: the builtin [int] or [float]. *)
Inductive result_type : Type :=
| int_type
| float_type.

(** [result_type(s)] on the numeric part of the input. *)
Definition convert_str (rt : result_type) (s : string) : exn + pyval :=
  match int_of_str s with
  | inl e => inl e
  | inr n =>
      match rt with
      | int_type => inr (PInt n)
      | float_type => inr (PFloat (binary_normalize prec emax n 0 false))
      end
  end.

(** [result_type(f)] on the float product. *)
Definition convert_float (rt : result_type) (f : spec_float) : exn + pyval :=
  match rt with
  | int_type =>
      match int_of_float f with
      | inl e => inl e
      | inr n => inr (PInt n)
      end
  | float_type => inr (PFloat f)
  end.

Record SizeWithUnitConverter : Type := {
  self_unit : string;
  self_result_type : result_type;
  self_unit_map : PyDict.t pyval
}.

(** [dict(B=1, kB=1024, MB=1024 * 1024, GB=1024 * 1024 * 1024,
          TB=1024 * 1024 * 1024 * 1024)] *)
Definition default_unit_map : PyDict.t pyval :=
  [ ("B", PInt 1);
    ("kB", PInt 1024);
    ("MB", PInt (1024 * 1024));
    ("GB", PInt (1024 * 1024 * 1024));
    ("TB", PInt (1024 * 1024 * 1024 * 1024)) ].

(** [__init__]: [unit_map or dict(...)] falls back to the byte ladder when
    no map, or an empty one, is given. *)
Definition SizeWithUnitConverter_init
  (unit : string) (rt : result_type) (unit_map : option (PyDict.t pyval))
  : SizeWithUnitConverter :=
  {| self_unit := unit;
     self_result_type := rt;
     self_unit_map := match unit_map with
                      | None | Some [] => default_unit_map
                      | Some m => m
                      end |}.

(** A step of a computation that may raise. *)
Definition and_then {A B : Type} (c : exn + A) (k : A -> exn + B) : exn + B :=
  match c with
  | inl e => inl e
  | inr a => k a
  end.

Notation "'let?' x := c 'in' k" := (and_then c (fun x => k))
  (at level 10, x name, c at level 100, k at level 200).

(** [d[k]] *)
Definition getitem {V : Type} (d : PyDict.t V) (k : string) : exn + V :=
  match PyDict.lookup d k with
  | Some v => inr v
  | None => inl KeyError
  end.

(** [except KeyError: raise ValueError()] *)
Definition keyerror_as_valueerror {A : Type} (c : exn + A) : exn + A :=
  match c with
  | inl KeyError => inl ValueError
  | r => r
  end.

(** [self.unit_map[u] if u else 1] *)
Definition multiplier_of (self : SizeWithUnitConverter) (u : string) : exn + pyval :=
  match u with
  | EmptyString => inr (PInt 1)
  | _ => getitem (self_unit_map self) u
  end.

(** The value bound to [uvals]: the multiplier of the unit part over the
    multiplier of the converter's own unit, numerator first. *)
Definition uvals_of (self : SizeWithUnitConverter) (unit_part : string) : exn + spec_float :=
  let? num := multiplier_of self unit_part in
  let? den := multiplier_of self (self_unit self) in
  truediv num den.

(** [SizeWithUnitConverter.__call__] *)
Definition SizeWithUnitConverter_call
  (self : SizeWithUnitConverter) (value : string) : exn + pyval :=
  let numeric_part := takewhile isdigit value in
  let unit_part := slice_from (String.length numeric_part) value in
  keyerror_as_valueerror
    (let? uvals := uvals_of self unit_part in
     let? n := convert_str (self_result_type self) numeric_part in
     let? product := float_mul uvals n in
     convert_float (self_result_type self) product).

(** The converter of [max_size_bytes_param_type]:
    [SizeWithUnitConverter('B', result_type=int)]. *)
Definition max_size_bytes_converter : SizeWithUnitConverter :=
  SizeWithUnitConverter_init "B" int_type None.

(** [1.0 / n] for an int [n], as in the table of [storage_param_type]. *)
Definition one_over (n : Z) : spec_float :=
  SFdiv prec emax (binary_normalize prec emax 1 0 false)
                  (binary_normalize prec emax n 0 false).

(** [dict(B=1.0 / (1024 * 1024 * 1024), kB=1.0 / (1024 * 1024),
          MB=1.0 / 1024, GB=1, TB=1024)] *)
Definition storage_unit_map : PyDict.t pyval :=
  [ ("B", PFloat (one_over (1024 * 1024 * 1024)));
    ("kB", PFloat (one_over (1024 * 1024)));
    ("MB", PFloat (one_over 1024));
    ("GB", PInt 1);
    ("TB", PInt 1024) ].

(** The converter of [storage_param_type]:
    [SizeWithUnitConverter('GB', result_type=int, unit_map=dict(...))]. *)
Definition storage_converter : SizeWithUnitConverter :=
  SizeWithUnitConverter_init "GB" int_type (Some storage_unit_map).

(** ** The validators *)

Record cli_context : Type := { current_subscription : string }.

Record command : Type := { cli_ctx : cli_context }.

(** Modelled from the spec: [get_subscription_id] of
    [azure.cli.core.commands.client_factory] is not among the sources; the
    spec has it give the current subscription of the invocation. *)
Definition get_subscription_id (ctx : cli_context) : string :=
  current_subscription ctx.

Section Validators.

(** [msrestazure.tools.is_valid_resource_id]: whether a value is a fully
    qualified resource identifier.  Only its truth value is used. *)
Variable is_valid_resource_id : pyval -> bool.

(** [str.format] on one value: the text a value is rendered as.  Only what
    it does to a string matters below: it renders a string as itself. *)
Variable format_value : pyval -> string.

(** Modelled from the spec: [resource_id] of [msrestazure.tools] is not
    among the sources; the spec gives the identifier it synthesizes from the
    subscription, the resource group, the provider namespace and type, the
    name and one child type and name as
    [/subscriptions/S/resourceGroups/RG/providers/N/T/name/CT/child]. *)
Definition resource_id
  (subscription : string) (resource_group : pyval) (namespace type : string)
  (name : pyval) (child_type_1 : string) (child_name_1 : pyval) : string :=
  "/subscriptions/" ++ subscription
  ++ "/resourceGroups/" ++ format_value resource_group
  ++ "/providers/" ++ namespace
  ++ "/" ++ type ++ "/" ++ format_value name
  ++ "/" ++ child_type_1 ++ "/" ++ format_value child_name_1.

(** [validate_subnet] *)
Definition validate_subnet (cmd : command) : M unit :=
  subnet <- getattr "virtual_network_subnet_id" ;;
  let subnet_is_id := is_valid_resource_id subnet in
  vnet <- getattr "vnet_name" ;;
  (if (subnet_is_id && negb (truthy vnet)) || (negb (truthy subnet) && negb (truthy vnet))
   then ret tt
   else if truthy subnet && negb subnet_is_id && truthy vnet
   then
     resource_group <- getattr "resource_group_name" ;;
     setattr "virtual_network_subnet_id"
       (PStr (resource_id (get_subscription_id (cli_ctx cmd)) resource_group
                "Microsoft.Network" "virtualNetworks" vnet "subnets" subnet))
   else raise CLIError) ;;;
  delattr "vnet_name".

End Validators.

(** [validate_managed_instance_storage_size].  The condition is
    [(not size) or (size and size % 32 == 0)], each [size] a read of
    [namespace.storage_size_in_gb]. *)
Definition validate_managed_instance_storage_size : M unit :=
  size <- getattr "storage_size_in_gb" ;;
  if negb (truthy size)
  then ret tt
  else
    size' <- getattr "storage_size_in_gb" ;;
    if truthy size'
    then
      size'' <- getattr "storage_size_in_gb" ;;
      remainder <- lift (py_mod size'' 32) ;;
      if py_eq_zero remainder then ret tt else raise CLIError
    else raise CLIError.

(** What a [CLIArgumentType] carries of interest here: the [type=] callable
    that argparse applies to the text of the flag, and the validator that
    runs on the namespace after parsing. *)
Record CLIArgumentType : Type := {
  options_list : list string;
  type : string -> exn + pyval;
  validator : M unit
}.

(** [storage_param_type] *)
Definition storage_param_type : CLIArgumentType :=
  {| options_list := ["--storage"];
     type := SizeWithUnitConverter_call storage_converter;
     validator := validate_managed_instance_storage_size |}.

(** [max_size_bytes_param_type]; it has no validator of its own. *)
Definition max_size_bytes_param_type : CLIArgumentType :=
  {| options_list := ["--max-size"];
     type := SizeWithUnitConverter_call max_size_bytes_converter;
     validator := ret tt |}.

(** [SizeWithUnitConverter.__repr__].  [sorted] compares the multipliers
    with Python's [<], which is taken as a parameter; it is stable, and on
    multipliers that [<] orders it returns what inserting each unit in turn
    after the units that are not greater returns.  The key of a unit is the
    multiplier of its own entry. *)
Section Repr.

Variable py_lt : pyval -> pyval -> bool.

Fixpoint insert_unit (x : string * pyval) (l : list (string * pyval))
  : list (string * pyval) :=
  match l with
  | [] => [x]
  | y :: rest =>
      if py_lt (snd x) (snd y) then x :: y :: rest else y :: insert_unit x rest
  end.

(** The entries of the unit map as [sorted(..., key=self.unit_map.__getitem__)]
    orders them. *)
Definition sorted_units (unit_map : PyDict.t pyval) : list (string * pyval) :=
  fold_left (fun acc x => insert_unit x acc) unit_map [].

(** [sep.join(l)] *)
Fixpoint join (sep : string) (l : list string) : string :=
  match l with
  | [] => EmptyString
  | [x] => x
  | x :: rest => x ++ sep ++ join sep rest
  end.

Definition SizeWithUnitConverter_repr (self : SizeWithUnitConverter) : string :=
  "Size (in " ++ self_unit self ++ ") - valid units are "
  ++ join ", " (map fst (sorted_units (self_unit_map self))) ++ ".".

End Repr.

(** ** sql db: the parameters of the create commands *)

(** [class Engine(Enum)] *)
Module Engine.

Inductive t : Type :=
| db
| dw.

Definition eqb (a b : t) : bool :=
  match a, b with
  | db, db | dw, dw => true
  | _, _ => false
  end.

End Engine.

(** The enum [CreateMode] of the SDK: the members that this module names,
    and [other] for the remaining members, by their value.  Members are
    equal when they are the same member. *)
Module CreateMode.

Inductive t : Type :=
| default
| copy
| secondary
| point_in_time_restore
| restore
| other (value : string).

Definition eqb (a b : t) : bool :=
  match a, b with
  | default, default
  | copy, copy
  | secondary, secondary
  | point_in_time_restore, point_in_time_restore
  | restore, restore => true
  | other x, other y => String.eqb x y
  | _, _ => false
  end.

End CreateMode.

(** [x in l] for enum members *)
Definition mode_in (x : CreateMode.t) (l : list CreateMode.t) : bool :=
  existsb (CreateMode.eqb x) l.

(** The keyword arguments of a call of [arg_ctx.argument], or the settings
    of a [CLIArgumentType] passed as its [arg_type]; [None] where a keyword
    is not given. *)
Record argument_settings : Type := {
  given_options_list : option (list string);
  given_arg_group : option string;
  given_required : option bool;
  given_help : option string
}.

(** What a function does to the [arg_ctx] it is given, in order. *)
Inductive registration : Type :=
| reg_extra (e : extra_argument)
| reg_hidden (h : hidden_argument)
| reg_argument (dest : string) (arg_type : option argument_settings)
               (kwargs : argument_settings)
| reg_ignore (dest : string).

(** The calls that [create_args_for_complex_type] makes: the flags, then
    the hidden destination. *)
Definition registrations_of
  (r : list extra_argument * option hidden_argument) : list registration :=
  (map reg_extra (fst r)
   ++ match snd r with
      | Some h => [reg_hidden h]
      | None => []
      end)%list.

(** [arg_ctx.ignore] called with the names: one ignore for each. *)
Definition ignore (names : list string) : list registration :=
  map reg_ignore names.

Definition sku_arg_group : string := "Performance Level".

Definition db_service_objective_examples : string :=
  "Basic, S0, P1, GP_Gen4_1, BC_Gen5_2.".

Definition dw_service_objective_examples : string := "DW100, DW1000c".

Definition elastic_pool_id_param_type : argument_settings :=
  {| given_options_list := Some ["--elastic-pool"];
     given_arg_group := Some sku_arg_group;
     given_required := None;
     given_help := None |}.

(** The schema of the [Database] object in [_configure_db_create_params]. *)
Definition database_arguments : list argument :=
  [Arg "catalog_collation"; Arg "collation"; Arg "elastic_pool_id";
   Arg "license_type"; Arg "max_size_bytes"; Arg "restore_point_in_time";
   Arg "sample_name"; Arg "sku"; Arg "source_database_deletion_date";
   Arg "tags"; Arg "zone_redundant"].

(** [_configure_db_create_params], with the SDK classes [Database] and
    [Sku] as parameters: the exception it raises, or the calls it makes on
    [arg_ctx]. *)
Definition _configure_db_create_params
  (database_class sku_class : model_class)
  (engine : Engine.t) (create_mode : CreateMode.t) : exn + list registration :=
  if Engine.eqb engine Engine.dw
     && negb (mode_in create_mode
                [CreateMode.default; CreateMode.point_in_time_restore; CreateMode.restore])
  then inl ValueError
  else
    inr
      (registrations_of
         (create_args_for_complex_type "parameters" database_class database_arguments None)
       ++ registrations_of
            (create_args_for_complex_type "sku" sku_class
               [Arg "capacity"; Arg "family"; Arg "name"; Arg "tier"] None)
       ++ [reg_argument "name" None
             {| given_options_list := Some ["--service-objective"];
                given_arg_group := Some sku_arg_group;
                given_required := Some false;
                given_help :=
                  Some ("The service objective for the new database. For example: "
                        ++ (if Engine.eqb engine Engine.db
                            then db_service_objective_examples
                            else dw_service_objective_examples))%string |}]
       ++ [reg_argument "elastic_pool_id" (Some elastic_pool_id_param_type)
             {| given_options_list := None;
                given_arg_group := None;
                given_required := None;
                given_help :=
                  Some "The name or resource id of the elastic pool to create the database in." |}]
       ++ (if negb (CreateMode.eqb create_mode CreateMode.default)
              || negb (Engine.eqb engine Engine.db)
           then ignore ["sample_name"] ++ ignore ["catalog_collation"] ++ ignore ["read_scale"]
           else [])
       ++ (if negb (mode_in create_mode [CreateMode.restore; CreateMode.point_in_time_restore])
           then ignore ["restore_point_in_time"; "source_database_deletion_date"]
           else [])
       ++ (if mode_in create_mode [CreateMode.copy; CreateMode.secondary]
           then ignore ["collation"; "tier"; "max_size_bytes"]
           else [])
       ++ (if mode_in create_mode [CreateMode.restore; CreateMode.point_in_time_restore]
           then ignore ["collation"; "max_size_bytes"]
           else [])
       ++ (if Engine.eqb engine Engine.dw
           then ignore ["elastic_pool_id"] ++ ignore ["tier"] ++ ignore ["license_type"]
                ++ ignore ["family"] ++ ignore ["capacity"]
           else []))%list.

(** The calls of [_configure_db_create_params] in [load_arguments], by the
    command whose argument context they configure. *)
Definition db_create_commands : list (string * Engine.t * CreateMode.t) :=
  [ ("sql db create", Engine.db, CreateMode.default);
    ("sql db copy", Engine.db, CreateMode.copy);
    ("sql db restore", Engine.db, CreateMode.point_in_time_restore);
    ("sql db replica create", Engine.db, CreateMode.secondary);
    ("sql dw create", Engine.dw, CreateMode.default) ].

(** ** Notions used to state the properties *)

(** The keys of the namespace that the aggregator's validator scans. *)
Definition matched_keys (mp : PyDict.t string) (ns : namespace) : list string :=
  filter (fun k => PyDict.mem mp k) (PyDict.keys ns).

(** The pairs (property name, value) that the validator collects, in the
    order of the namespace. *)
Definition collected (mp : PyDict.t string) (ns : namespace) : list (string * pyval) :=
  flat_map (fun kv => match PyDict.lookup mp (fst kv) with
                      | Some p => [(p, snd kv)]
                      | None => []
                      end) ns.

Definition delete_all (l : list string) (ns : namespace) : namespace :=
  fold_left (fun d k => PyDict.delete d k) l ns.

(** The float [2^j], for [j] in the range of normal numbers. *)
Definition pow2_float (j : Z) : spec_float :=
  S754_finite false 4503599627370496 (j - 52).

(** A unit part begins where the digits end. *)
Definition starts_without_digit (rest : string) : bool :=
  match rest with
  | String c _ => negb (isdigit c)
  | EmptyString => true
  end.

(** The multiplier that the byte ladder gives a unit part: 1 when the unit
    part is empty. *)
Definition ladder_multiplier (u : string) : option Z :=
  match u with
  | EmptyString => Some 1%Z
  | _ => match PyDict.lookup default_unit_map u with
         | Some (PInt m) => Some m
         | _ => None
         end
  end.

(** The size in bytes that the text [digits ++ u] denotes for [--storage],
    where no unit means gigabytes. *)
Definition size_in_bytes (digits u : string) : option Z :=
  match ladder_multiplier (match u with EmptyString => "GB" | _ => u end) with
  | Some m => Some (decimal_value 0 digits * m)%Z
  | None => None
  end.

(** ** Inputs for the examples *)

(** A constructor whose parameters are keyword-only, those of [required]
    without a default: a call that leaves one of them out raises
    [TypeError], any other call gives the object with the keyword
    arguments as its attributes. *)
Definition keyword_only_init (name : string) (required : list string)
  (kwargs : PyDict.t pyval) : exn + pyval :=
  if forallb (PyDict.mem kwargs) required
  then inr (PObj name kwargs)
  else inl TypeError.

(** Stand-ins for classes of the SDK, with the required properties of
    their [_validation] tables as the required keywords. *)
Definition Sku : model_class :=
  {| model_name := "Sku";
     _validation := [("name", [("required", PBool true)])];
     option_descriptions := [];
     init := keyword_only_init "Sku" ["name"] |}.

Definition JobStepOutput : model_class :=
  {| model_name := "JobStepOutput";
     _validation := [("server_name", [("required", PBool true)]);
                     ("database_name", [("required", PBool true)]);
                     ("table_name", [("required", PBool true)]);
                     ("credential", [("required", PBool true)])];
     option_descriptions := [];
     init := keyword_only_init "JobStepOutput"
               ["server_name"; "database_name"; "table_name"; "credential"] |}.


(** The schema of [create_args_for_complex_type(arg_ctx, 'sku', Sku, ...)]. *)
Definition sku_arguments : list argument :=
  [Arg "capacity"; Arg "family"; Arg "name"; Arg "tier"].

(** The schema of
    [create_args_for_complex_type(c, 'output', JobStepOutput, ...)]. *)
Definition output_arguments : list argument :=
  [ArgPair "server_name" "output_server_name"; Arg "database_name";
   Arg "schema_name"; Arg "table_name"; ArgPair "credential" "output_credential"].

(** A test that agrees with [is_valid_resource_id] on the texts of the
    examples: identifiers there start with [/subscriptions/], names do not. *)
Definition resource_id_prefix (v : pyval) : bool :=
  match v with
  | PStr s => String.prefix "/subscriptions/" s
  | _ => false
  end.

(** Rendering restricted to strings, which is all the examples render. *)
Definition format_text (v : pyval) : string :=
  match v with
  | PStr s => s
  | _ => EmptyString
  end.

Definition example_subnet_id : string :=
  "/subscriptions/S/resourceGroups/RG/providers/Microsoft.Network/virtualNetworks/v/subnets/x".

Definition example_cmd : command :=
  {| cli_ctx := {| current_subscription := "S" |} |}.

(** ** Further notions used to state the properties *)

(** Whether a character occurs in a text. *)
Fixpoint has_char (c : ascii) (s : string) : bool :=
  match s with
  | EmptyString => false
  | String c' rest => Ascii.eqb c' c || has_char c rest
  end.

(** The names that a sequence of registrations ignores, and the flags it
    adds. *)
Definition ignored (log : list registration) : list string :=
  flat_map (fun r => match r with reg_ignore d => [d] | _ => [] end) log.

Definition flags (log : list registration) : list string :=
  flat_map (fun r => match r with reg_extra e => [extra_dest e] | _ => [] end) log.

Definition is_ignored (name : string) (log : list registration) : bool :=
  existsb (String.eqb name) (ignored log).

(** An entry is not greater than another when the multiplier of the other
    is not smaller than its own. *)
Definition not_greater (py_lt : pyval -> pyval -> bool) (a b : string * pyval) : Prop :=
  py_lt (snd b) (snd a) = false.

(** A comparison orders some values when, on them, it is asymmetric and
    being not smaller is transitive. *)
Definition ordered_by (lt : pyval -> pyval -> bool) (vs : list pyval) : bool :=
  forallb (fun a => forallb (fun b =>
    (negb (lt a b) || negb (lt b a))
    && forallb (fun c => lt b a || lt c b || negb (lt c a)) vs) vs) vs.

(** Python's [<] between numbers: ints, booleans and floats are compared
    by their exact values, and nothing is smaller or greater than a NaN.
    It is used only on numbers. *)
Inductive extended : Type :=
| NegInf
| Fin (m e : Z)
| PosInf.

Definition to_extended (v : pyval) : option extended :=
  match v with
  | PInt n => Some (Fin n 0)
  | PBool b => Some (Fin (if b then 1 else 0) 0)
  | PFloat (S754_zero _) => Some (Fin 0 0)
  | PFloat (S754_finite s m e) => Some (Fin (if s then Zneg m else Zpos m) e)
  | PFloat (S754_infinity s) => Some (if s then NegInf else PosInf)
  | _ => None
  end.

Definition extended_lt (x y : extended) : bool :=
  match x, y with
  | NegInf, NegInf => false
  | NegInf, _ => true
  | Fin _ _, NegInf => false
  | Fin m1 e1, Fin m2 e2 =>
      let e := Z.min e1 e2 in
      (m1 * 2 ^ (e1 - e) <? m2 * 2 ^ (e2 - e))%Z
  | Fin _ _, PosInf => true
  | PosInf, _ => false
  end.

Definition num_lt (a b : pyval) : bool :=
  match to_extended a, to_extended b with
  | Some x, Some y => extended_lt x y
  | _, _ => false
  end.

(** Further inputs for the examples. *)
Definition Database : model_class :=
  {| model_name := "Database";
     _validation := [("location", [("required", PBool true)])];
     option_descriptions := [];
     init := keyword_only_init "Database" ["location"] |}.


(** The digits of [10^309], a number above every float. *)
Definition ten_to_the_309 : string :=
  "1000000000000000000000000000000000000000000000000000000000000000000000000000000000000000000000000000000000000000000000000000000000000000000000000000000000000000000000000000000000000000000000000000000000000000000000000000000000000000000000000000000000000000000000000000000000000000000000000000000000000000000000".

(** The float operations are stated with the names of the core library;
    this brings them to the names the arithmetic lemmas use. *)
Ltac stdlib_names :=
  change IntDef.Z.add with Z.add in *;
  change IntDef.Z.sub with Z.sub in *;
  change IntDef.Z.max with Z.max in *;
  change IntDef.Z.min with Z.min in *;
  change IntDef.Z.leb with Z.leb in *;
  change IntDef.Z.eqb with Z.eqb in *;
  change PosDef.Pos.mul with Pos.mul in *;
  change @PosDef.Pos.iter with @Pos.iter in *;
  change PosDef.Pos.succ with Pos.succ in *.

(** ** Facts about dictionaries *)

Lemma existsb_eqb_In (k : string) (l : list string) :
  existsb (String.eqb k) l = true <-> In k l.
Proof.
  rewrite existsb_exists. split.
  - intros [x [Hin Heq]]. apply String.eqb_eq in Heq. now subst.
  - intros Hin. exists k. split; [assumption | apply String.eqb_refl].
Qed.

Lemma distinct_NoDup (l : list string) : distinct l = true <-> NoDup l.
Proof.
  induction l as [|k l IH]; simpl.
  - split; [constructor | reflexivity].
  - rewrite andb_true_iff, negb_true_iff, IH. split.
    + intros [Hk Hl]. constructor; [|assumption].
      intros Hin. apply existsb_eqb_In in Hin. congruence.
    + intros H. inversion H as [|? ? Hnin Hnd]; subst. split; [|assumption].
      destruct (existsb (String.eqb k) l) eqn:E; [|reflexivity].
      apply existsb_eqb_In in E. contradiction.
Qed.

Module PyDictFacts.
Import PyDict.

Section Facts.
Context {V : Type}.
Implicit Types (d : PyDict.t V) (k : string) (v : V).

Lemma lookup_In d k v : lookup d k = Some v -> In (k, v) d.
Proof.
  induction d as [|[k' v'] d IH]; simpl; [discriminate|].
  destruct (String.eqb_spec k' k) as [->|Hne].
  - intros [= ->]. now left.
  - intros H. right. auto.
Qed.

Lemma mem_In_keys d k : mem d k = true <-> In k (keys d).
Proof.
  unfold mem. induction d as [|[k' v'] d IH]; simpl.
  - split; [discriminate | contradiction].
  - destruct (String.eqb_spec k' k) as [->|Hne].
    + split; auto.
    + rewrite IH. split; [auto | intros [H|H]; [contradiction | assumption]].
Qed.


Lemma lookup_None_keys d k : lookup d k = None <-> ~ In k (keys d).
Proof.
  rewrite <- mem_In_keys. unfold mem. destruct (lookup d k); split; congruence.
Qed.

Lemma In_lookup d k v :
  well_formed d = true -> In (k, v) d -> lookup d k = Some v.
Proof.
  unfold well_formed. rewrite distinct_NoDup.
  induction d as [|[k' v'] d IH]; simpl; [contradiction|].
  intros Hnd Hin. inversion Hnd as [|? ? Hnin Hnd']; subst.
  destruct Hin as [[= -> ->]|Hin].
  - now rewrite String.eqb_refl.
  - destruct (String.eqb_spec k' k) as [->|Hne]; [|auto].
    exfalso. apply Hnin. change (In (fst (k, v)) (map fst d)). now apply in_map.
Qed.

Lemma lookup_update d k v k' :
  lookup (update d k v) k' = if String.eqb k k' then Some v else lookup d k'.
Proof.
  induction d as [|[k0 v0] d IH]; simpl.
  - reflexivity.
  - destruct (String.eqb_spec k0 k) as [->|Hne]; simpl.
    + destruct (String.eqb_spec k k'); reflexivity.
    + rewrite IH. destruct (String.eqb_spec k0 k') as [->|Hne'].
      * destruct (String.eqb_spec k k'); [congruence | reflexivity].
      * reflexivity.
Qed.

Lemma keys_update d k v :
  keys (update d k v) = if mem d k then keys d else (keys d ++ [k])%list.
Proof.
  unfold mem. induction d as [|[k0 v0] d IH]; simpl.
  - reflexivity.
  - destruct (String.eqb_spec k0 k) as [->|Hne]; simpl.
    + reflexivity.
    + rewrite IH. destruct (lookup d k); reflexivity.
Qed.

Lemma well_formed_update d k v :
  well_formed d = true -> well_formed (update d k v) = true.
Proof.
  unfold well_formed. rewrite keys_update, !distinct_NoDup.
  destruct (mem d k) eqn:E; [auto|].
  intros Hnd. apply NoDup_app; [assumption | repeat constructor; auto |].
  intros x Hx [<-|[]]. apply mem_In_keys in Hx. congruence.
Qed.

Lemma lookup_delete_other d k k' :
  k <> k' -> lookup (delete d k) k' = lookup d k'.
Proof.
  intros Hne. induction d as [|[k0 v0] d IH]; simpl; [reflexivity|].
  destruct (String.eqb_spec k0 k) as [->|Hne0]; simpl.
  - destruct (String.eqb_spec k k'); [contradiction | reflexivity].
  - now rewrite IH.
Qed.

Lemma delete_filter d k :
  well_formed d = true ->
  delete d k = filter (fun kv => negb (String.eqb (fst kv) k)) d.
Proof.
  unfold well_formed. rewrite distinct_NoDup.
  induction d as [|[k0 v0] d IH]; simpl; [reflexivity|].
  intros Hnd. inversion Hnd as [|? ? Hnin Hnd']; subst.
  destruct (String.eqb_spec k0 k) as [->|Hne0]; simpl.
  - symmetry. apply forallb_filter_id. apply forallb_forall.
    intros [k1 v1] Hin. simpl. apply negb_true_iff, String.eqb_neq.
    intros ->. apply Hnin. change (In (fst (k, v1)) (map fst d)). now apply in_map.
  - now rewrite IH.
Qed.

Lemma well_formed_filter (f : string * V -> bool) d :
  well_formed d = true -> well_formed (filter f d) = true.
Proof.
  unfold well_formed. rewrite !distinct_NoDup.
  induction d as [|[k0 v0] d IH]; simpl; [auto|].
  intros Hnd. inversion Hnd as [|? ? Hnin Hnd']; subst.
  destruct (f (k0, v0)); simpl; [|auto].
  constructor; [|auto]. intros Hin. apply Hnin.
  apply in_map_iff in Hin as [[k1 v1] [Hk Hin]]. apply filter_In in Hin as [Hin _].
  simpl in Hk. subst. change (In (fst (k0, v1)) (map fst d)). now apply in_map.
Qed.

Lemma lookup_filter_key (f : string -> bool) d k :
  lookup (filter (fun kv => f (fst kv)) d) k = if f k then lookup d k else None.
Proof.
  induction d as [|[k0 v0] d IH]; simpl.
  - now destruct (f k).
  - destruct (String.eqb_spec k0 k) as [->|Hne].
    + destruct (f k) eqn:E0; simpl; rewrite ?String.eqb_refl; [reflexivity|].
      assumption.
    + destruct (f k0) eqn:E0; simpl; [|assumption].
      destruct (String.eqb_spec k0 k); [contradiction | assumption].
Qed.

(** [dict(pairs)] holds for a key the value of its last pair. *)
Lemma lookup_fold_update (pairs : list (string * V)) d k :
  lookup (fold_left (fun d kv => update d (fst kv) (snd kv)) pairs d) k =
  match lookup (rev pairs) k with
  | Some v => Some v
  | None => lookup d k
  end.
Proof.
  revert d. induction pairs as [|[k0 v0] pairs IH]; intros d; simpl.
  - reflexivity.
  - rewrite IH, lookup_update. simpl.
    assert (Happ : forall (l1 l2 : PyDict.t V),
               lookup (l1 ++ l2)%list k =
               match lookup l1 k with Some v => Some v | None => lookup l2 k end).
    { induction l1 as [|[a b] l1 IHl]; intros l2; simpl; [reflexivity|].
      destruct (String.eqb a k); [reflexivity | apply IHl]. }
    rewrite Happ. simpl. destruct (lookup (rev pairs) k); [reflexivity|].
    destruct (String.eqb k0 k); reflexivity.
Qed.

Lemma lookup_of_pairs (pairs : list (string * V)) k :
  lookup (of_pairs pairs) k = lookup (rev pairs) k.
Proof.
  unfold of_pairs. rewrite lookup_fold_update. simpl.
  now destruct (lookup (rev pairs) k).
Qed.

End Facts.
End PyDictFacts.

Import PyDict PyDictFacts.

(** ** The aggregator *)

Lemma filter_filter_and {A : Type} (f g : A -> bool) (l : list A) :
  filter f (filter g l) = filter (fun x => g x && f x) l.
Proof.
  induction l as [|a l IH]; simpl; [reflexivity|].
  destruct (g a); simpl; [destruct (f a)|]; now rewrite IH.
Qed.

Lemma delete_all_filter (l : list string) (ns : namespace) :
  well_formed ns = true ->
  delete_all l ns = filter (fun kv => negb (existsb (String.eqb (fst kv)) l)) ns.
Proof.
  unfold delete_all. revert ns. induction l as [|k l IH]; intros ns Hwf; simpl.
  - symmetry. apply forallb_filter_id. now apply forallb_forall.
  - rewrite (delete_filter ns k Hwf), IH by now apply well_formed_filter.
    rewrite filter_filter_and. apply filter_ext. intros [k0 v0]. simpl.
    now rewrite negb_orb.
Qed.

Lemma lookup_delete_all (l : list string) (ns : namespace) (k : string) :
  well_formed ns = true ->
  lookup (delete_all l ns) k = if existsb (String.eqb k) l then None else lookup ns k.
Proof.
  intros Hwf. rewrite delete_all_filter by assumption.
  rewrite (lookup_filter_key (fun k => negb (existsb (String.eqb k) l))).
  now destruct (existsb (String.eqb k) l).
Qed.

Lemma for_each_delattr (l : list string) (ns : namespace) :
  NoDup l -> (forall k, In k l -> mem ns k = true) ->
  for_each l delattr ns = (inr tt, delete_all l ns).
Proof.
  unfold delete_all. revert ns. induction l as [|k l IH]; intros ns Hnd Hin; simpl.
  - reflexivity.
  - inversion Hnd as [|? ? Hnin Hnd']; subst.
    unfold bind at 1. unfold delattr at 1. rewrite (Hin k) by now left.
    apply IH; [assumption|]. intros k' Hk'. unfold mem.
    rewrite lookup_delete_other by (intros ->; contradiction).
    apply Hin. now right.
Qed.

Lemma entry_pair (mp : PyDict.t string) (ns : namespace) k p v :
  lookup mp k = Some p -> lookup ns k = Some v ->
  (p <- subscript mp k ;; v <- getattr k ;; ret (p, v)) ns = (inr (p, v), ns).
Proof.
  intros Hp Hv. unfold bind, subscript, getattr, ret. now rewrite Hp, Hv.
Qed.

Lemma comprehension_cons {A B : Type} (f : A -> M B) a l (ns : namespace) b bs :
  f a ns = (inr b, ns) -> comprehension f l ns = (inr bs, ns) ->
  comprehension f (a :: l) ns = (inr (b :: bs), ns).
Proof.
  intros Ha Hl. simpl. unfold bind. rewrite Ha, Hl. reflexivity.
Qed.

Lemma comprehension_collected (mp : PyDict.t string) (ns suffix : namespace) :
  (forall k v, In (k, v) suffix -> lookup ns k = Some v) ->
  comprehension (fun k => p <- subscript mp k ;; v <- getattr k ;; ret (p, v))
                (matched_keys mp suffix) ns
  = (inr (collected mp suffix), ns).
Proof.
  unfold matched_keys. induction suffix as [|[k v] suffix IH]; intros Hin; simpl.
  - reflexivity.
  - unfold mem at 1. destruct (lookup mp k) as [p|] eqn:Ep; simpl app.
    + apply comprehension_cons.
      * apply entry_pair; [assumption | apply Hin; now left].
      * apply IH. intros; apply Hin; now right.
    + apply IH. intros; apply Hin; now right.
Qed.

Lemma matched_keys_NoDup mp ns : well_formed ns = true -> NoDup (matched_keys mp ns).
Proof.
  unfold well_formed. rewrite distinct_NoDup. apply NoDup_filter.
Qed.

Lemma matched_keys_In mp ns k :
  In k (matched_keys mp ns) <-> mem ns k = true /\ mem mp k = true.
Proof.
  unfold matched_keys. rewrite filter_In, (mem_In_keys ns k). tauto.
Qed.

(** What a run of the aggregator's validator amounts to: when no value is
    truthy the flags are deleted; otherwise the constructor is called, and
    either its exception leaves the namespace as it was, or the model is
    stored and the flags are deleted. *)
Lemma expansion_validator_run mp dest ty (ns : namespace) :
  well_formed ns = true ->
  _expansion_validator_impl mp dest ty ns =
  let properties := of_pairs (collected mp ns) in
  if existsb truthy (values properties)
  then match construct ty properties with
       | inl e => (inl e, ns)
       | inr model => (inr tt, delete_all (matched_keys mp ns) (update ns dest model))
       end
  else (inr tt, delete_all (matched_keys mp ns) ns).
Proof.
  intros Hwf. unfold _expansion_validator_impl.
  unfold bind at 1. unfold vars. fold (matched_keys mp ns).
  unfold bind at 1. rewrite comprehension_collected by (intros; now apply In_lookup).
  cbv zeta. unfold bind at 1.
  destruct (existsb truthy (values (of_pairs (collected mp ns)))).
  - unfold bind at 1. unfold lift.
    destruct (construct ty (of_pairs (collected mp ns))) as [e|model]; [reflexivity|].
    unfold setattr. apply for_each_delattr; [now apply matched_keys_NoDup|].
    intros k Hk. apply matched_keys_In in Hk as [Hk _].
    apply mem_In_keys. rewrite keys_update.
    apply mem_In_keys in Hk. destruct (mem ns dest); [assumption | apply in_or_app; now left].
  - unfold ret. apply for_each_delattr; [now apply matched_keys_NoDup|].
    intros k Hk. now apply matched_keys_In in Hk as [Hk _].
Qed.

Lemma existsb_matched mp (ns : namespace) k :
  mem ns k = true -> existsb (String.eqb k) (matched_keys mp ns) = mem mp k.
Proof.
  intros Hk. destruct (mem mp k) eqn:E.
  - apply existsb_eqb_In, matched_keys_In. auto.
  - destruct (existsb (String.eqb k) (matched_keys mp ns)) eqn:E'; [|reflexivity].
    apply existsb_eqb_In, matched_keys_In in E'. destruct E'; congruence.
Qed.

Lemma delete_matched mp (ns : namespace) :
  well_formed ns = true ->
  delete_all (matched_keys mp ns) ns = filter (fun kv => negb (mem mp (fst kv))) ns.
Proof.
  intros Hwf. rewrite delete_all_filter by assumption.
  apply filter_ext_in. intros [k v] Hin. simpl. f_equal.
  apply existsb_matched. apply mem_In_keys.
  change (In (fst (k, v)) (map fst ns)). now apply in_map.
Qed.

Lemma In_update {V : Type} (d : PyDict.t V) k v kv :
  In kv (update d k v) -> kv = (k, v) \/ In kv d.
Proof.
  induction d as [|[k0 v0] d IH]; simpl.
  - intros [<-|[]]. now left.
  - destruct (String.eqb_spec k0 k) as [->|Hne]; simpl.
    + intros [<-|H]; auto.
    + intros [<-|H]; auto. destruct (IH H); auto.
Qed.

Lemma In_of_pairs {V : Type} (pairs : list (string * V)) kv :
  In kv (of_pairs pairs) -> In kv pairs.
Proof.
  unfold of_pairs.
  assert (H : forall acc, In kv (fold_left (fun d kv => update d (fst kv) (snd kv)) pairs acc)
                          -> In kv acc \/ In kv pairs).
  { induction pairs as [|[k v] pairs IH]; intros acc; simpl; [auto|].
    intros Hin. destruct (IH _ Hin) as [Hacc|Hp]; [|auto].
    apply In_update in Hacc as [->|Hacc]; auto. }
  intros Hin. destruct (H [] Hin) as [[]|Hp]. assumption.
Qed.

Lemma In_collected mp (ns : namespace) p v :
  In (p, v) (collected mp ns) <-> exists k, In (k, v) ns /\ lookup mp k = Some p.
Proof.
  unfold collected. rewrite in_flat_map. split.
  - intros [[k v'] [Hin Hp]]. simpl in Hp. destruct (lookup mp k) eqn:E; [|contradiction].
    destruct Hp as [[= <- <-]|[]]. eauto.
  - intros [k [Hin Hp]]. exists (k, v). split; [assumption|]. simpl. rewrite Hp. now left.
Qed.

Lemma snd_injective {A B : Type} (l : list (A * B)) a a' b :
  NoDup (map snd l) -> In (a, b) l -> In (a', b) l -> a = a'.
Proof.
  induction l as [|[a0 b0] l IH]; simpl; [contradiction|].
  intros Hnd H1 H2. inversion Hnd as [|? ? Hnin Hnd']; subst.
  destruct H1 as [E1|H1]; destruct H2 as [E2|H2].
  - congruence.
  - inversion E1; subst. exfalso. apply Hnin.
    change (In (snd (a', b)) (map snd l)). now apply in_map.
  - inversion E2; subst. exfalso. apply Hnin.
    change (In (snd (a, b)) (map snd l)). now apply in_map.
  - auto.
Qed.

Lemma collected_keys_NoDup mp (ns : namespace) :
  distinct (values mp) = true -> well_formed ns = true ->
  NoDup (map fst (collected mp ns)).
Proof.
  intros Hmp. rewrite distinct_NoDup in Hmp. unfold well_formed. rewrite distinct_NoDup.
  induction ns as [|[k v] ns IH]; simpl; intros Hnd; [constructor|].
  inversion Hnd as [|? ? Hnin Hnd']; subst.
  destruct (lookup mp k) as [p|] eqn:Ep; simpl; [|auto].
  constructor; [|auto]. intros Hin.
  apply in_map_iff in Hin as [[p' v'] [Hp Hin]]. simpl in Hp. subst p'.
  apply In_collected in Hin as [k' [Hin Hk']].
  assert (k = k') by (eapply (snd_injective mp); eauto using lookup_In).
  subst k'. apply Hnin. change (In (fst (k, v')) (map fst ns)). now apply in_map.
Qed.

Lemma lookup_properties mp (ns : namespace) k p v :
  distinct (values mp) = true -> well_formed ns = true ->
  lookup mp k = Some p -> lookup ns k = Some v ->
  lookup (of_pairs (collected mp ns)) p = Some v.
Proof.
  intros Hmp Hwf Hp Hv. rewrite lookup_of_pairs. apply In_lookup.
  - unfold well_formed, keys. rewrite map_rev. apply distinct_NoDup, NoDup_rev.
    now apply collected_keys_NoDup.
  - apply in_rev. rewrite rev_involutive. apply In_collected.
    exists k. split; [now apply lookup_In | assumption].
Qed.

Lemma properties_origin mp (ns : namespace) p v :
  well_formed ns = true ->
  lookup (of_pairs (collected mp ns)) p = Some v ->
  exists k, lookup mp k = Some p /\ lookup ns k = Some v.
Proof.
  intros Hwf H. apply lookup_In, In_of_pairs, In_collected in H as [k [Hin Hp]].
  exists k. split; [assumption | now apply In_lookup].
Qed.

Lemma truthy_value_found mp (ns : namespace) :
  distinct (values mp) = true -> well_formed ns = true ->
  (exists k v, lookup ns k = Some v /\ mem mp k = true /\ truthy v = true) ->
  existsb truthy (values (of_pairs (collected mp ns))) = true.
Proof.
  intros Hmp Hwf (k & v & Hv & Hk & Ht).
  unfold mem in Hk. destruct (lookup mp k) as [p|] eqn:Ep; [|discriminate].
  apply existsb_exists. exists v. split; [|assumption].
  change v with (snd (p, v)). apply in_map, lookup_In.
  now apply (lookup_properties mp ns k).
Qed.

Lemma no_truthy_value mp (ns : namespace) :
  (forall k v, In (k, v) ns -> mem mp k = true -> truthy v = false) ->
  existsb truthy (values (of_pairs (collected mp ns))) = false.
Proof.
  intros H. destruct (existsb _ _) eqn:E; [|reflexivity].
  apply existsb_exists in E as [v [Hin Ht]].
  apply in_map_iff in Hin as [[p v'] [Hs Hin]]. simpl in Hs. subst v'.
  apply In_of_pairs, In_collected in Hin as [k [Hin Hp]].
  rewrite (H k v) in Ht; [discriminate | assumption |].
  unfold mem. now rewrite Hp.
Qed.

(** When some scanned flag holds a truthy value the constructor is called
    with every scanned flag; its exception is the validator's, which then
    leaves the namespace as it was, and its model is stored. *)
Lemma aggregator_builds mp dest (ns : namespace) :
  well_formed ns = true ->
  distinct (values mp) = true ->
  mem mp dest = false ->
  (exists k v, lookup ns k = Some v /\ mem mp k = true /\ truthy v = true) ->
  exists kwargs,
    (forall k p v, lookup mp k = Some p -> lookup ns k = Some v ->
                   lookup kwargs p = Some v) /\
    (forall p v, lookup kwargs p = Some v ->
                 exists k, lookup mp k = Some p /\ lookup ns k = Some v) /\
    forall ty,
      let result := _expansion_validator_impl mp dest ty ns in
      (forall e, construct ty kwargs = inl e -> result = (inl e, ns)) /\
      (forall model, construct ty kwargs = inr model ->
         fst result = inr tt /\
         lookup (snd result) dest = Some model /\
         (forall k, mem mp k = true -> lookup (snd result) k = None)).
Proof.
  intros Hwf Hmp Hdest Hsome.
  exists (of_pairs (collected mp ns)).
  split; [intros k p v Hp Hv; now apply (lookup_properties mp ns k)|].
  split; [intros p v H; now apply properties_origin|].
  intros ty. cbv zeta. rewrite expansion_validator_run by assumption. cbv zeta.
  rewrite truthy_value_found by assumption.
  split; [intros e He; now rewrite He|].
  intros model Hmodel. rewrite Hmodel. simpl fst. simpl snd.
  assert (Hwf' : well_formed (update ns dest model) = true)
    by now apply well_formed_update.
  split; [reflexivity|]. split.
  - rewrite lookup_delete_all by assumption.
    destruct (existsb (String.eqb dest) (matched_keys mp ns)) eqn:E.
    + apply existsb_eqb_In, matched_keys_In in E. destruct E; congruence.
    + rewrite lookup_update, String.eqb_refl. reflexivity.
  - intros k Hk. rewrite lookup_delete_all by assumption.
    destruct (existsb (String.eqb k) (matched_keys mp ns)) eqn:E; [reflexivity|].
    rewrite lookup_update. destruct (String.eqb_spec dest k) as [->|Hne]; [congruence|].
    destruct (lookup ns k) eqn:El; [|reflexivity].
    rewrite existsb_matched in E by (unfold mem; now rewrite El). congruence.
Qed.




(** The registrations of the [Sku] schema: one flag per property, [name]
    required by the model's validation table, the destination hidden. *)
Example sku_registrations :
  map (fun e => (extra_dest e, extra_options_list e, extra_required e))
      (fst (create_args_for_complex_type "sku" Sku sku_arguments None))
  = [("capacity", ["--capacity"], PBool false);
     ("family", ["--family"], PBool false);
     ("name", ["--name"], PBool true);
     ("tier", ["--tier"], PBool false)]
  /\ option_map hidden_options_list
       (snd (create_args_for_complex_type "sku" Sku sku_arguments None))
     = Some ["--__SKU"].
Proof. split; reflexivity. Qed.

(** The flags of the [JobStepOutput] schema, and the map from flag key to
    property name that its validator works with. *)
Example output_registrations :
  map (fun e => (extra_dest e, extra_options_list e))
      (fst (create_args_for_complex_type "output" JobStepOutput output_arguments
              (Some "Output")))
  = [("output_server_name", ["--output-server-name"]);
     ("database_name", ["--database-name"]);
     ("schema_name", ["--schema-name"]);
     ("table_name", ["--table-name"]);
     ("output_credential", ["--output-credential"])]
  /\ model_properties_of output_arguments
     = [("output_server_name", "server_name");
        ("database_name", "database_name");
        ("schema_name", "schema_name");
        ("table_name", "table_name");
        ("output_credential", "credential")].
Proof. split; reflexivity. Qed.

(** ** Float arithmetic on the sizes *)

Section FloatFacts.
Local Open Scope Z_scope.

Lemma digits2_pos_iter_xO (p d : positive) :
  digits2_pos (Pos.iter xO p d) = (digits2_pos p + d)%positive.
Proof.
  induction d using Pos.peano_ind.
  - simpl. lia.
  - rewrite Pos.iter_succ. simpl. rewrite IHd. lia.
Qed.

Lemma Zpos_iter_xO (p d : positive) :
  Zpos (Pos.iter xO p d) = Zpos p * 2 ^ Zpos d.
Proof.
  induction d using Pos.peano_ind.
  - simpl. lia.
  - rewrite Pos.iter_succ, Pos2Z.inj_xO, IHd, Pos2Z.inj_succ, Z.pow_succ_r by lia. lia.
Qed.

Lemma digits2_pos_bound (p : positive) :
  2 ^ (Zpos (digits2_pos p) - 1) <= Zpos p < 2 ^ Zpos (digits2_pos p).
Proof.
  induction p; simpl digits2_pos.
  - rewrite Pos2Z.inj_succ, Z.pow_succ_r by lia.
    replace (Z.succ (Zpos (digits2_pos p)) - 1) with (Z.succ (Zpos (digits2_pos p) - 1)) by lia.
    rewrite Z.pow_succ_r by lia. lia.
  - rewrite Pos2Z.inj_succ, Z.pow_succ_r by lia.
    replace (Z.succ (Zpos (digits2_pos p)) - 1) with (Z.succ (Zpos (digits2_pos p) - 1)) by lia.
    rewrite Z.pow_succ_r by lia. lia.
  - simpl. lia.
Qed.

Lemma digits2_pos_le (p : positive) (k : Z) :
  Zpos p < 2 ^ k -> 0 <= k -> Zpos (digits2_pos p) <= k.
Proof.
  intros H Hk. destruct (digits2_pos_bound p) as [Hlo _].
  destruct (Z_le_gt_dec (Zpos (digits2_pos p)) k) as [|Hgt]; [assumption|].
  exfalso. assert (2 ^ k <= 2 ^ (Zpos (digits2_pos p) - 1)) by (apply Z.pow_le_mono_r; lia).
  lia.
Qed.

(** a mantissa of 53 bits with an exponent in range is left as it is *)
Lemma binary_round_aux_canonical (s : bool) (m : positive) (e : Z) :
  digits2_pos m = 53%positive -> -1074 <= e <= 971 ->
  binary_round_aux prec emax s (Zpos m) e loc_Exact = S754_finite s m e.
Proof.
  intros Hd He. unfold binary_round_aux, shr_fexp. stdlib_names. simpl Zdigits2. rewrite Hd.
  assert (Hf : fexp prec emax (53 + e) - e = 0).
  { unfold fexp, emin, prec, emax. lia. }
  rewrite Hf. cbn [shr shr_record_of_loc shr_m round_nearest_even loc_of_shr_record Zdigits2]. rewrite Hd, Hf.
  cbn [shr shr_m].
  unfold emax, prec. destruct (Z.leb_spec e (1024 - 53)); [reflexivity | lia].
Qed.

Lemma float_of_int_exact (p : positive) :
  Zpos p < 2 ^ 53 ->
  let d := Zpos (digits2_pos p) in
  exists m, digits2_pos m = 53%positive /\ Zpos m = Z.shiftl (Zpos p) (53 - d)
    /\ float_of_int (Zpos p) = inr (S754_finite false m (d - 53)).
Proof.
  intros Hp d.
  assert (Hd : d <= 53) by (apply digits2_pos_le; [assumption | lia]).
  assert (Hd1 : 1 <= d) by (unfold d; lia).
  unfold float_of_int, binary_normalize, binary_round. stdlib_names.
  assert (Hf : fexp prec emax (Zpos (digits2_pos p) + 0) = d - 53).
  { unfold fexp, emin, prec, emax. fold d. lia. }
  rewrite Hf. unfold shl_align. stdlib_names.
  destruct (d - 53 - 0) as [|q|q] eqn:Hq; try lia.
  - exists p. assert (d = 53) by lia. split; [unfold d in *; lia|].
    split. { replace (53 - d) with 0 by lia. reflexivity. }
    replace (d - 53) with 0 by lia.
    rewrite binary_round_aux_canonical; [reflexivity | unfold d in *; lia | lia].
  - exists (Pos.iter xO p q). split.
    { rewrite digits2_pos_iter_xO. unfold d in *. lia. }
    split. { rewrite Zpos_iter_xO, Z.shiftl_mul_pow2 by lia. f_equal. f_equal. lia. }
    rewrite binary_round_aux_canonical; [reflexivity | | lia].
    rewrite digits2_pos_iter_xO. unfold d in *. lia.
Qed.

Lemma SFmul_pow2 (j : Z) (m : positive) (e : Z) :
  digits2_pos m = 53%positive -> -1074 <= e + j <= 971 ->
  SFmul prec emax (pow2_float j) (S754_finite false m e) = S754_finite false m (e + j).
Proof.
  intros Hd He. unfold pow2_float, SFmul. cbn [xorb].
  unfold binary_round_aux, shr_fexp. stdlib_names.
  cbn [Pos.mul Zdigits2 digits2_pos]. rewrite Hd. cbn [Pos.succ].
  assert (Hf : fexp prec emax (105 + (j - 52 + e)) - (j - 52 + e) = 52).
  { unfold fexp, emin, prec, emax. lia. }
  rewrite Hf.
  cbn [shr shr_record_of_loc iter_pos shr_1 orb shr_m round_nearest_even loc_of_shr_record Zdigits2].
  rewrite Hd.
  assert (Hg : fexp prec emax (53 + (j - 52 + e + 52)) - (j - 52 + e + 52) = 0).
  { unfold fexp, emin, prec, emax. lia. }
  rewrite Hg. cbn [shr shr_m].
  unfold emax, prec. destruct (Z.leb_spec (j - 52 + e + 52) (1024 - 53)); [f_equal; lia | lia].
Qed.

Lemma int_of_float_shift (p m : positive) (j : Z) :
  let d := Zpos (digits2_pos p) in
  d <= 53 ->
  Zpos m = Z.shiftl (Zpos p) (53 - d) ->
  int_of_float (S754_finite false m (d - 53 + j)) = inr (Z.shiftl (Zpos p) j).
Proof.
  intros d Hd Hm. unfold int_of_float. rewrite Hm.
  rewrite Z.shiftl_shiftl by lia. do 2 f_equal. lia.
Qed.

(** multiplying an int of at most 2^53 by a power of two, then truncating *)
Lemma scale_exact (n j : Z) :
  0 <= n <= 2 ^ 53 -> -1000 <= j <= 900 ->
  (let? product := float_mul (pow2_float j) (PInt n) in convert_float int_type product)
  = inr (PInt (Z.shiftl n j)).
Proof.
  intros Hn Hj. destruct (Z.eq_dec n (2 ^ 53)) as [->|Hne].
  - unfold float_mul.
    change (as_float (PInt (2 ^ 53))) with
      (@inr exn _ (S754_finite false 4503599627370496 1)).
    cbn [and_then]. rewrite SFmul_pow2; [| reflexivity | lia].
    unfold convert_float, int_of_float.
    change (Z.pos 4503599627370496) with (Z.shiftl 4503599627370496 0).
    change (2 ^ 53) with (Z.shiftl (Z.shiftl 4503599627370496 0) 1).
    rewrite !Z.shiftl_shiftl by lia. reflexivity.
  - destruct n as [|p|p]; try lia.
    + rewrite Z.shiftl_0_l. reflexivity.
    + destruct (float_of_int_exact p) as [m [Hd [Hm Hf]]]; [lia|].
      pose proof (digits2_pos_le p 53) as Hle.
      unfold float_mul, as_float. rewrite Hf. cbn [and_then].
      rewrite SFmul_pow2; [| assumption | lia].
      unfold convert_float. rewrite (int_of_float_shift p m j); [reflexivity | lia | assumption].
Qed.

Lemma shiftl_quot (x a b : Z) :
  0 <= x -> 0 <= a -> 0 <= b -> Z.shiftl x (a - b) = Z.quot (x * 2 ^ a) (2 ^ b).
Proof.
  intros Hx Ha Hb. rewrite Z.quot_div_nonneg by (try apply Z.mul_nonneg_nonneg; lia).
  destruct (Z_le_gt_dec b a) as [Hle|Hgt].
  - rewrite Z.shiftl_mul_pow2 by lia.
    replace a with ((a - b) + b) at 2 by lia. rewrite Z.pow_add_r by lia.
    rewrite Z.mul_assoc, Z.div_mul by lia. reflexivity.
  - replace (a - b) with (- (b - a)) by lia. rewrite Z.shiftl_opp_r, Z.shiftr_div_pow2 by lia.
    replace b with ((b - a) + a) at 2 by lia. rewrite Z.pow_add_r by lia.
    rewrite Z.div_mul_cancel_r by lia. reflexivity.
Qed.

Lemma takewhile_digits (digits rest : string) :
  all_digits digits = true ->
  starts_without_digit rest = true ->
  takewhile isdigit (digits ++ rest) = digits.
Proof.
  intros Hd Hr. induction digits as [|c digits IH]; simpl in *.
  - destruct rest as [|c rest]; [reflexivity|]. simpl in *.
    apply negb_true_iff in Hr. now rewrite Hr.
  - apply andb_true_iff in Hd as [Hc Hd]. rewrite Hc, IH by assumption. reflexivity.
Qed.

Lemma slice_from_length (digits rest : string) :
  slice_from (String.length digits) (digits ++ rest) = rest.
Proof.
  induction digits as [|c digits IH]; simpl; [now destruct rest | assumption].
Qed.

Lemma call_split (self : SizeWithUnitConverter) (digits rest : string) :
  all_digits digits = true ->
  starts_without_digit rest = true ->
  SizeWithUnitConverter_call self (digits ++ rest) =
  keyerror_as_valueerror
    (let? uvals := uvals_of self rest in
     let? n := convert_str (self_result_type self) digits in
     let? product := float_mul uvals n in
     convert_float (self_result_type self) product).
Proof.
  intros Hd Hr. unfold SizeWithUnitConverter_call. cbv zeta.
  rewrite takewhile_digits, slice_from_length by assumption. reflexivity.
Qed.

Lemma ladder_multiplier_cases (u : string) (m : Z) :
  ladder_multiplier u = Some m ->
  In (u, m) [(EmptyString, 1%Z); ("B", 1%Z); ("kB", 1024%Z); ("MB", 1048576%Z);
             ("GB", 1073741824%Z); ("TB", 1099511627776%Z)].
Proof.
  unfold ladder_multiplier. destruct u as [|c u].
  - intros [= <-]. now left.
  - unfold default_unit_map. cbn [PyDict.lookup].
    repeat match goal with
           | |- context [String.eqb ?a ?b] =>
               destruct (String.eqb_spec a b) as [<-|_];
               [intros [= <-]; simpl; tauto|]
           end.
    discriminate.
Qed.

Lemma ladder_uvals (base u : string) (rt : result_type) (mu mb : Z) :
  ladder_multiplier u = Some mu -> ladder_multiplier base = Some mb ->
  exists a b : Z,
    (0 <= a <= 40 /\ 0 <= b <= 40 /\ mu = 2 ^ a /\ mb = 2 ^ b)%Z /\
    starts_without_digit u = true /\
    uvals_of (SizeWithUnitConverter_init base rt None) u = inr (pow2_float (a - b)).
Proof.
  intros Hu Hb. apply ladder_multiplier_cases in Hu, Hb.
  exists (Z.log2 mu), (Z.log2 mb).
  simpl in Hu, Hb.
  repeat match goal with H : _ \/ _ |- _ => destruct H as [H|H] end;
    try contradiction; injection Hu as <- <-; injection Hb as <- <-;
    (split; [cbn; lia | split; [reflexivity | vm_compute; reflexivity]]).
Qed.

Lemma convert_str_digits (digits : string) :
  all_digits digits = true -> digits <> EmptyString ->
  convert_str int_type digits = inr (PInt (decimal_value 0 digits)).
Proof.
  intros Hd Hne. unfold convert_str, int_of_str. destruct digits; [contradiction|].
  now rewrite Hd.
Qed.

Lemma decimal_value_nonneg (s : string) (acc : Z) :
  (0 <= acc -> 0 <= decimal_value acc s)%Z.
Proof.
  revert acc. induction s as [|c s IH]; intros acc Hacc; cbn [decimal_value]; [assumption|].
  apply IH. unfold digit_value. lia.
Qed.

Lemma storage_uvals (u : string) (mu : Z) :
  ladder_multiplier (match u with EmptyString => "GB" | _ => u end) = Some mu ->
  exists a : Z,
    (0 <= a <= 40 /\ mu = 2 ^ a)%Z /\
    starts_without_digit u = true /\
    uvals_of storage_converter u = inr (pow2_float (a - 30)).
Proof.
  intros Hu. apply ladder_multiplier_cases in Hu.
  exists (Z.log2 mu). simpl in Hu.
  destruct u as [|c u].
  - repeat match goal with H : _ \/ _ |- _ => destruct H as [H|H] end;
      try contradiction; try discriminate; injection Hu as <-;
      (split; [cbn; lia | split; [reflexivity | vm_compute; reflexivity]]).
  - repeat match goal with H : _ \/ _ |- _ => destruct H as [H|H] end;
      try contradiction; try discriminate; injection Hu as <- <- <-;
      (split; [cbn; lia | split; [reflexivity | vm_compute; reflexivity]]).
Qed.


Lemma append_empty (s : string) : s ++ EmptyString = s.
Proof.
  induction s as [|c s IH]; simpl; [reflexivity | now rewrite IH].
Qed.

(** A converter over the byte ladder, on digits followed by a unit of the
    ladder. *)
Lemma ladder_call (base digits u : string) (mu mb : Z) :
  all_digits digits = true ->
  digits <> EmptyString ->
  decimal_value 0 digits <= 2 ^ 53 ->
  ladder_multiplier u = Some mu ->
  ladder_multiplier base = Some mb ->
  SizeWithUnitConverter_call (SizeWithUnitConverter_init base int_type None) (digits ++ u)
  = inr (PInt (Z.quot (decimal_value 0 digits * mu) mb)).
Proof.
  intros Hd Hne Hn Hu Hb.
  destruct (ladder_uvals base u int_type mu mb Hu Hb)
    as (a & b & (Ha & Hb' & -> & ->) & Hstart & Huv).
  rewrite call_split by assumption. rewrite Huv.
  cbn [and_then self_result_type SizeWithUnitConverter_init].
  rewrite convert_str_digits by assumption. cbn [and_then].
  pose proof (decimal_value_nonneg digits 0 ltac:(lia)) as Hpos.
  rewrite scale_exact by lia. cbn [keyerror_as_valueerror].
  rewrite shiftl_quot by lia. reflexivity.
Qed.

(** The converter of [--storage], on digits followed by a unit. *)
Lemma storage_call (digits u : string) (bytes : Z) :
  all_digits digits = true ->
  digits <> EmptyString ->
  decimal_value 0 digits <= 2 ^ 53 ->
  size_in_bytes digits u = Some bytes ->
  SizeWithUnitConverter_call storage_converter (digits ++ u)
  = inr (PInt (Z.quot bytes (1024 * 1024 * 1024))).
Proof.
  intros Hd Hne Hn Hsize. unfold size_in_bytes in Hsize.
  destruct (ladder_multiplier _) as [mu|] eqn:Hmu; [|discriminate].
  injection Hsize as <-.
  destruct (storage_uvals u mu Hmu) as (a & (Ha & ->) & Hstart & Huv).
  pose proof (decimal_value_nonneg digits 0 ltac:(lia)) as Hpos.
  rewrite call_split by assumption. rewrite Huv.
  cbn [and_then self_result_type storage_converter SizeWithUnitConverter_init].
  rewrite convert_str_digits by assumption. cbn [and_then].
  rewrite scale_exact by lia. cbn [keyerror_as_valueerror].
  rewrite shiftl_quot by lia. reflexivity.
Qed.

(** Conversions of the two converters of the module. *)
Example conversions :
  type max_size_bytes_param_type "512" = inr (PInt 512)
  /\ type max_size_bytes_param_type "10kB" = inr (PInt 10240)
  /\ type max_size_bytes_param_type "GB" = inl ValueError
  /\ type storage_param_type "64" = inr (PInt 64)
  /\ type storage_param_type "2TB" = inr (PInt 2048)
  /\ type storage_param_type "1536MB" = inr (PInt 1)
  /\ SizeWithUnitConverter_call (SizeWithUnitConverter_init "kB" int_type None) "2047B"
     = inr (PInt 1).
Proof. repeat split; vm_compute; reflexivity. Qed.

End FloatFacts.

(** ** The validators *)

Lemma storage_validator_on_falsy (ns : namespace) (v : pyval) :
  PyDict.lookup ns "storage_size_in_gb" = Some v -> truthy v = false ->
  validate_managed_instance_storage_size ns = (inr tt, ns).
Proof.
  intros Hl Hv. unfold validate_managed_instance_storage_size, bind, getattr.
  rewrite Hl, Hv. reflexivity.
Qed.

Lemma storage_validator_on_truthy (ns : namespace) (v : pyval) :
  PyDict.lookup ns "storage_size_in_gb" = Some v -> truthy v = true ->
  validate_managed_instance_storage_size ns =
  match py_mod v 32 with
  | inl e => (inl e, ns)
  | inr remainder => if py_eq_zero remainder then (inr tt, ns) else (inl CLIError, ns)
  end.
Proof.
  intros Hl Hv. unfold validate_managed_instance_storage_size, bind, getattr, lift.
  rewrite Hl, Hv. cbn [negb]. rewrite Hl, Hv, Hl.
  destruct (py_mod v 32) as [e|r]; [reflexivity|].
  destruct (py_eq_zero r); reflexivity.
Qed.

Lemma storage_validator_keeps (ns : namespace) :
  snd (validate_managed_instance_storage_size ns) = ns.
Proof.
  destruct (lookup ns "storage_size_in_gb") as [v|] eqn:Hl.
  - destruct (truthy v) eqn:Hv.
    + rewrite (storage_validator_on_truthy ns v Hl Hv).
      destruct (py_mod v 32) as [e|r]; [reflexivity|].
      destruct (py_eq_zero r); reflexivity.
    + now rewrite (storage_validator_on_falsy ns v Hl Hv).
  - unfold validate_managed_instance_storage_size, bind, getattr. now rewrite Hl.
Qed.

Section SubnetFacts.
Variable is_valid_resource_id : pyval -> bool.
Variable format_value : pyval -> string.
Variable cmd : command.

Lemma validate_subnet_run (ns : namespace) (subnet vnet : pyval) :
  lookup ns "virtual_network_subnet_id" = Some subnet ->
  lookup ns "vnet_name" = Some vnet ->
  validate_subnet is_valid_resource_id format_value cmd ns =
  if (is_valid_resource_id subnet && negb (truthy vnet))
     || (negb (truthy subnet) && negb (truthy vnet))
  then (inr tt, delete ns "vnet_name")
  else if truthy subnet && negb (is_valid_resource_id subnet) && truthy vnet
  then match lookup ns "resource_group_name" with
       | Some resource_group =>
           (inr tt,
            delete (update ns "virtual_network_subnet_id"
                      (PStr (resource_id format_value
                               (get_subscription_id (cli_ctx cmd)) resource_group
                               "Microsoft.Network" "virtualNetworks" vnet
                               "subnets" subnet)))
                   "vnet_name")
       | None => (inl AttributeError, ns)
       end
  else (inl CLIError, ns).
Proof.
  intros Hs Hv. unfold validate_subnet, bind, getattr. rewrite Hs, Hv.
  destruct ((is_valid_resource_id subnet && negb (truthy vnet))
            || (negb (truthy subnet) && negb (truthy vnet))).
  - unfold ret, delattr, mem. now rewrite Hv.
  - destruct (truthy subnet && negb (is_valid_resource_id subnet) && truthy vnet).
    + destruct (lookup ns "resource_group_name") as [rg|]; [|reflexivity].
      unfold setattr, delattr, mem. rewrite lookup_update. simpl String.eqb.
      now rewrite Hv.
    + reflexivity.
Qed.

Lemma validate_subnet_raise_keeps (ns : namespace) :
  fst (validate_subnet is_valid_resource_id format_value cmd ns) = inl CLIError ->
  snd (validate_subnet is_valid_resource_id format_value cmd ns) = ns.
Proof.
  destruct (lookup ns "virtual_network_subnet_id") as [subnet|] eqn:Hs.
  - destruct (lookup ns "vnet_name") as [vnet|] eqn:Hv.
    + rewrite (validate_subnet_run ns subnet vnet Hs Hv).
      destruct (_ || _); [discriminate|].
      destruct (_ && _).
      * destruct (lookup ns "resource_group_name"); discriminate.
      * reflexivity.
    + unfold validate_subnet, bind, getattr. rewrite Hs, Hv. reflexivity.
  - unfold validate_subnet, bind, getattr. rewrite Hs. reflexivity.
Qed.

End SubnetFacts.


(** ** The properties of the module *)

(** *** The aggregator *)

(** C1, as the code has it.  When some flag of the schema holds a truthy
    value, the validator calls the constructor, whichever class it is of,
    with one keyword argument for every flag of the schema that is an
    attribute of the namespace, whatever its value: a flag that holds
    [None] is passed as [property=None], and only the flags that the
    namespace lacks are left out of the call; every keyword argument comes
    from such a flag.  If the constructor raises, the validator raises the
    same exception and the namespace is as it was, flags included.  If the
    constructor returns, the validator returns normally, the model is
    stored under the destination and every flag of the schema is gone from
    the namespace.  The schema maps distinct flags to distinct properties
    and does not list the destination among its flags. *)
Theorem C1_every_scanned_flag_is_passed mp dest (ns : namespace) :
  well_formed ns = true ->
  distinct (values mp) = true ->
  mem mp dest = false ->
  (exists k v, lookup ns k = Some v /\ mem mp k = true /\ truthy v = true) ->
  exists kwargs,
    (forall k p v, lookup mp k = Some p -> lookup ns k = Some v ->
                   lookup kwargs p = Some v) /\
    (forall p v, lookup kwargs p = Some v ->
                 exists k, lookup mp k = Some p /\ lookup ns k = Some v) /\
    forall ty,
      let result := _expansion_validator_impl mp dest ty ns in
      (forall e, construct ty kwargs = inl e -> result = (inl e, ns)) /\
      (forall model, construct ty kwargs = inr model ->
         fst result = inr tt /\
         lookup (snd result) dest = Some model /\
         (forall k, mem mp k = true -> lookup (snd result) k = None)).
Proof.
  exact (aggregator_builds mp dest ns).
Qed.

(** C1 at the [Sku] schema with [capacity=5], [family=None],
    [name='GP_Gen5'] and [tier='GeneralPurpose']: the call carries
    [family=None], the model is stored and the flag [family] is deleted. *)
Lemma C1_every_scanned_flag_is_passed_witness :
  exists kwargs,
    let result :=
      _expansion_validator_impl (model_properties_of sku_arguments) "sku" Sku
        [("capacity", PInt 5); ("family", PNone); ("name", PStr "GP_Gen5");
         ("tier", PStr "GeneralPurpose")] in
    fst result = inr tt
    /\ lookup (snd result) "sku" = Some (PObj "Sku" kwargs)
    /\ lookup kwargs "capacity" = Some (PInt 5)
    /\ lookup kwargs "family" = Some PNone
    /\ lookup (snd result) "family" = None.
Proof.
  destruct (C1_every_scanned_flag_is_passed (model_properties_of sku_arguments) "sku"
              [("capacity", PInt 5); ("family", PNone); ("name", PStr "GP_Gen5");
               ("tier", PStr "GeneralPurpose")])
    as (kwargs & Hall & _ & Hrun).
  - reflexivity.
  - reflexivity.
  - reflexivity.
  - exists "capacity", (PInt 5). repeat split; reflexivity.
  - exists kwargs. cbv zeta.
    destruct (Hrun Sku) as (_ & Hbuilt).
    destruct (Hbuilt (PObj "Sku" kwargs)) as (Hok & Hdest & Hgone).
    + unfold construct. cbn [init Sku]. unfold keyword_only_init.
      cbn [forallb]. unfold mem.
      rewrite (Hall "name" "name" (PStr "GP_Gen5")); reflexivity.
    + split; [exact Hok|]. split; [exact Hdest|]. split.
      * apply (Hall "capacity"); reflexivity.
      * split; [apply (Hall "family"); reflexivity | apply Hgone; reflexivity].
Defined.

(** C1 as stated fails, in two ways.  With [capacity=5] and the other
    three flags of the [Sku] schema left at [None], the constructor is
    called as [Sku(capacity=5, family=None, name=None, tier=None)]: the
    flags that were not supplied are passed as [None], not left out.  And
    with [capacity=5] and [tier='GP'] alone in the namespace, the call
    [Sku(capacity=5, tier='GP')] lacks the required [name] and raises
    [TypeError], which leaves the validator before its loop: the two flags
    are still in the namespace. *)
Lemma C1_none_is_passed_and_a_raise_keeps_the_flags :
  (exists kwargs,
     _expansion_validator_impl (model_properties_of sku_arguments) "sku" Sku
       [("capacity", PInt 5); ("family", PNone); ("name", PNone); ("tier", PNone)]
     = (inr tt, [("sku", PObj "Sku" kwargs)])
     /\ kwargs = [("capacity", PInt 5); ("family", PNone); ("name", PNone); ("tier", PNone)]
     /\ lookup kwargs "family" = Some PNone)
  /\ _expansion_validator_impl (model_properties_of sku_arguments) "sku" Sku
       [("capacity", PInt 5); ("tier", PStr "GP")]
     = (inl TypeError, [("capacity", PInt 5); ("tier", PStr "GP")]).
Proof.
  split; [|reflexivity].
  exists [("capacity", PInt 5); ("family", PNone); ("name", PNone); ("tier", PNone)].
  split; [reflexivity|]. split; reflexivity.
Qed.

(** C2.  When no flag of the schema holds a truthy value, the validator
    returns normally and its only effect is to delete the flags of the
    schema from the namespace: the destination is not assigned, so it keeps
    the value it had, and no scanned flag remains. *)
Theorem C2_nothing_supplied_nothing_built mp dest ty (ns : namespace) :
  well_formed ns = true ->
  (forall k v, In (k, v) ns -> mem mp k = true -> truthy v = false) ->
  let result := _expansion_validator_impl mp dest ty ns in
  fst result = inr tt /\
  snd result = filter (fun kv => negb (mem mp (fst kv))) ns /\
  (mem mp dest = false -> lookup (snd result) dest = lookup ns dest) /\
  (forall k, mem mp k = true -> lookup (snd result) k = None).
Proof.
  intros Hwf Hnone result. subst result.
  rewrite expansion_validator_run by assumption. cbv zeta.
  rewrite no_truthy_value by assumption. simpl fst. simpl snd.
  rewrite delete_matched by assumption.
  split; [reflexivity|]. split; [reflexivity|]. split.
  - intros Hd. rewrite (lookup_filter_key (fun k => negb (mem mp k))). now rewrite Hd.
  - intros k Hk. rewrite (lookup_filter_key (fun k => negb (mem mp k))). now rewrite Hk.
Qed.

(** C2 at the [Sku] schema with [None], the empty string, zero and [False]
    under its four flags: only the destination's default and the unrelated
    attribute are left. *)
Lemma C2_nothing_supplied_nothing_built_witness :
  _expansion_validator_impl (model_properties_of sku_arguments) "sku" Sku
    [("capacity", PInt 0); ("family", PStr EmptyString); ("name", PNone);
     ("tier", PBool false); ("sku", PNone); ("tags", PList [])]
  = (inr tt, [("sku", PNone); ("tags", PList [])]).
Proof.
  pose proof (C2_nothing_supplied_nothing_built (model_properties_of sku_arguments) "sku" Sku
                [("capacity", PInt 0); ("family", PStr EmptyString); ("name", PNone);
                 ("tier", PBool false); ("sku", PNone); ("tags", PList [])]) as H.
  cbv zeta in H. destruct H as (Hfst & Hsnd & _).
  - reflexivity.
  - intros k v Hin Hk. simpl in Hin.
    repeat (destruct Hin as [Hin|Hin]; [injection Hin as <- <-; try reflexivity; discriminate Hk|]).
    contradiction.
  - rewrite (surjective_pairing (_expansion_validator_impl _ _ _ _)), Hfst, Hsnd.
    reflexivity.
Defined.



(** *** The size converter *)

(** C4, as the code has it.  The product is computed in floats, which hold
    every integer up to [2^53].  For a numeric part [n] of at most [2^53]:
    a converter over the byte ladder with base unit [b] returns
    [n * unit_map[u] / unit_map[b]] truncated to an int, for every unit [u]
    of the ladder and for the empty unit, whose multiplier is 1; with base
    [B], as [--max-size] has it, that is [n * unit_map[u]] exactly, and a
    bare numeric string converts to itself; the converter of [--storage]
    returns the size over [1024^3], truncated. *)
Theorem C4_conversion_is_exact_up_to_2_53 (digits : string) :
  all_digits digits = true ->
  digits <> EmptyString ->
  (decimal_value 0 digits <= 2 ^ 53)%Z ->
  let n := decimal_value 0 digits in
  (forall base u mu mb,
      ladder_multiplier u = Some mu -> ladder_multiplier base = Some mb ->
      SizeWithUnitConverter_call (SizeWithUnitConverter_init base int_type None) (digits ++ u)
      = inr (PInt (Z.quot (n * mu) mb)))
  /\ (forall u mu,
         ladder_multiplier u = Some mu ->
         type max_size_bytes_param_type (digits ++ u) = inr (PInt (n * mu)))
  /\ type max_size_bytes_param_type digits = inr (PInt n)
  /\ (forall u bytes,
         size_in_bytes digits u = Some bytes ->
         type storage_param_type (digits ++ u)
         = inr (PInt (Z.quot bytes (1024 * 1024 * 1024)))).
Proof.
  intros Hd Hne Hn n. subst n. split; [|split; [|split]].
  - intros base u mu mb Hu Hb. now apply ladder_call.
  - intros u mu Hu. cbn [type max_size_bytes_param_type]. unfold max_size_bytes_converter.
    rewrite (ladder_call "B" digits u mu 1) by (assumption || reflexivity).
    now rewrite Z.quot_1_r.
  - cbn [type max_size_bytes_param_type]. unfold max_size_bytes_converter.
    rewrite <- (append_empty digits) at 1.
    rewrite (ladder_call "B" digits EmptyString 1 1) by (assumption || reflexivity).
    now rewrite Z.quot_1_r, Z.mul_1_r.
  - intros u bytes Hsize. cbn [type storage_param_type]. now apply storage_call.
Qed.

(** C4 at ["2GB"] with base [B]: [2 * 1024 * 1024 * 1024]. *)
Lemma C4_conversion_is_exact_up_to_2_53_witness :
  type max_size_bytes_param_type "2GB" = inr (PInt (2 * 1024 * 1024 * 1024)).
Proof.
  destruct (C4_conversion_is_exact_up_to_2_53 "2") as (_ & H & _).
  - reflexivity.
  - discriminate.
  - vm_compute. discriminate.
  - exact (H "GB" (1024 * 1024 * 1024)%Z eq_refl).
Defined.

(** C4 as stated fails above [2^53]: the bare numeric string
    ["9007199254740993"], which is [2^53 + 1], converts with base [B] to
    [9007199254740992]. *)
Lemma C4_bare_number_above_2_53_is_rounded :
  type max_size_bytes_param_type "9007199254740993" = inr (PInt 9007199254740992)
  /\ type max_size_bytes_param_type "9007199254740993" <> inr (PInt 9007199254740993).
Proof.
  split; [vm_compute; reflexivity | vm_compute; discriminate].
Qed.

(** C5.  When the unit part of the input, what follows its leading digits,
    is not empty and is not a key of the unit map, the converter raises
    [ValueError], the invalid-argument failure of an argparse type. *)
Theorem C5_unknown_unit_is_rejected (self : SizeWithUnitConverter) (value : string) :
  let numeric_part := takewhile isdigit value in
  let unit_part := slice_from (String.length numeric_part) value in
  unit_part <> EmptyString ->
  PyDict.mem (self_unit_map self) unit_part = false ->
  SizeWithUnitConverter_call self value = inl ValueError.
Proof.
  intros numeric_part unit_part Hne Hmem.
  unfold SizeWithUnitConverter_call. cbv zeta. fold numeric_part. fold unit_part.
  unfold uvals_of, multiplier_of, getitem. unfold PyDict.mem in Hmem.
  destruct unit_part; [contradiction|].
  destruct (PyDict.lookup (self_unit_map self) _); [discriminate|]. reflexivity.
Qed.

(** C5 at ["10XB"], for both converters of the module. *)
Lemma C5_unknown_unit_is_rejected_witness :
  type max_size_bytes_param_type "10XB" = inl ValueError
  /\ type storage_param_type "10XB" = inl ValueError.
Proof.
  split.
  - apply (C5_unknown_unit_is_rejected max_size_bytes_converter "10XB");
      [discriminate | reflexivity].
  - apply (C5_unknown_unit_is_rejected storage_converter "10XB");
      [discriminate | reflexivity].
Defined.

(** *** The validators *)

(** C6.  With a subnet that is a non-empty name and not a resource
    identifier, a non-empty vnet name and a resource group [RG] in the
    namespace, [validate_subnet] returns normally, the subnet field then
    holds
    [/subscriptions/S/resourceGroups/RG/providers/Microsoft.Network/virtualNetworks/<vnet>/subnets/<subnet>]
    for the current subscription [S], and the vnet-name field is gone. *)
Theorem C6_subnet_name_becomes_identifier
  (is_valid_resource_id : pyval -> bool) (format_value : pyval -> string)
  (cmd : command) (ns : namespace) (subnet vnet resource_group : string) :
  (forall s, format_value (PStr s) = s) ->
  well_formed ns = true ->
  lookup ns "virtual_network_subnet_id" = Some (PStr subnet) ->
  subnet <> EmptyString ->
  is_valid_resource_id (PStr subnet) = false ->
  lookup ns "vnet_name" = Some (PStr vnet) ->
  vnet <> EmptyString ->
  lookup ns "resource_group_name" = Some (PStr resource_group) ->
  let result := validate_subnet is_valid_resource_id format_value cmd ns in
  fst result = inr tt /\
  lookup (snd result) "virtual_network_subnet_id"
  = Some (PStr ("/subscriptions/" ++ get_subscription_id (cli_ctx cmd)
                ++ "/resourceGroups/" ++ resource_group
                ++ "/providers/Microsoft.Network/virtualNetworks/" ++ vnet
                ++ "/subnets/" ++ subnet)) /\
  lookup (snd result) "vnet_name" = None.
Proof.
  intros Hfmt Hwf Hs Hsne Hid Hv Hvne Hrg result. subst result.
  rewrite (validate_subnet_run _ _ _ ns (PStr subnet) (PStr vnet) Hs Hv).
  rewrite Hid, Hrg.
  assert (Ht : forall s, s <> EmptyString -> truthy (PStr s) = true)
    by (intros [|c s] H; [contradiction | reflexivity]).
  rewrite !Ht by assumption. cbn [negb andb orb fst snd].
  set (rid := PStr _).
  assert (Hwf' : well_formed (update ns "virtual_network_subnet_id" rid) = true)
    by now apply well_formed_update.
  split; [reflexivity|]. split.
  - rewrite lookup_delete_other by discriminate.
    rewrite lookup_update, String.eqb_refl. subst rid. unfold resource_id.
    rewrite !Hfmt. simpl. reflexivity.
  - rewrite delete_filter by assumption.
    rewrite (lookup_filter_key (fun k => negb (String.eqb k "vnet_name"))).
    reflexivity.
Qed.

(** C6 at [subnet='mysubnet'], [vnet='myvnet'], resource group [RG] and
    subscription [S]. *)
Lemma C6_subnet_name_becomes_identifier_witness :
  let ns := [("resource_group_name", PStr "RG");
             ("virtual_network_subnet_id", PStr "mysubnet");
             ("vnet_name", PStr "myvnet")] in
  lookup (snd (validate_subnet resource_id_prefix format_text example_cmd ns))
         "virtual_network_subnet_id"
  = Some (PStr "/subscriptions/S/resourceGroups/RG/providers/Microsoft.Network/virtualNetworks/myvnet/subnets/mysubnet")
  /\ lookup (snd (validate_subnet resource_id_prefix format_text example_cmd ns))
            "vnet_name" = None.
Proof.
  intros ns.
  destruct (C6_subnet_name_becomes_identifier resource_id_prefix format_text example_cmd
              ns "mysubnet" "myvnet" "RG") as (_ & Hid & Hvnet).
  - reflexivity.
  - reflexivity.
  - reflexivity.
  - discriminate.
  - reflexivity.
  - reflexivity.
  - discriminate.
  - reflexivity.
  - split; [exact Hid | exact Hvnet].
Defined.

(** C7, as the code has it.  With both fields in the namespace,
    [validate_subnet] raises [CLIError] exactly when a vnet name is given
    with a subnet that is a resource identifier, when a vnet name is given
    with no subnet, or when a subnet name is given with no vnet name.  When
    the subnet is a resource identifier and no vnet name is given, or
    neither is given, it returns normally, the subnet field holds what it
    held, and the namespace is the one it was given less its vnet-name
    field. *)
Theorem C7_subnet_usage_errors
  (is_valid_resource_id : pyval -> bool) (format_value : pyval -> string)
  (cmd : command) (ns : namespace) (subnet vnet : pyval) :
  lookup ns "virtual_network_subnet_id" = Some subnet ->
  lookup ns "vnet_name" = Some vnet ->
  let result := validate_subnet is_valid_resource_id format_value cmd ns in
  (fst result = inl CLIError <->
     (is_valid_resource_id subnet = true /\ truthy vnet = true)
     \/ (is_valid_resource_id subnet = false /\ truthy subnet = false /\ truthy vnet = true)
     \/ (is_valid_resource_id subnet = false /\ truthy subnet = true /\ truthy vnet = false))
  /\
  ((is_valid_resource_id subnet = true /\ truthy vnet = false)
   \/ (truthy subnet = false /\ truthy vnet = false) ->
   fst result = inr tt
   /\ snd result = delete ns "vnet_name"
   /\ lookup (snd result) "virtual_network_subnet_id" = Some subnet).
Proof.
  intros Hs Hv result. subst result.
  rewrite (validate_subnet_run _ _ _ ns subnet vnet Hs Hv).
  destruct (is_valid_resource_id subnet), (truthy subnet), (truthy vnet);
    cbn [negb andb orb fst snd];
    try destruct (lookup ns "resource_group_name");
    cbn [fst snd];
    (split;
     [ split; [ try discriminate; intros _; tauto
              | intros [[? ?]|[[? [? ?]]|[? [? ?]]]]; try discriminate; reflexivity ]
     | intros [[? ?]|[? ?]]; try discriminate;
       (split; [reflexivity | split; [reflexivity|]]);
       rewrite lookup_delete_other by discriminate; assumption ]).
Qed.

(** C7 at a subnet name without vnet name, which raises, and at a subnet
    identifier without vnet name, which passes and loses the vnet-name
    field. *)
Lemma C7_subnet_usage_errors_witness :
  fst (validate_subnet resource_id_prefix format_text example_cmd
         [("virtual_network_subnet_id", PStr "mysubnet"); ("vnet_name", PNone)])
  = inl CLIError
  /\ snd (validate_subnet resource_id_prefix format_text example_cmd
            [("virtual_network_subnet_id", PStr example_subnet_id); ("vnet_name", PNone)])
     = [("virtual_network_subnet_id", PStr example_subnet_id)].
Proof.
  split.
  - apply (C7_subnet_usage_errors resource_id_prefix format_text example_cmd
             [("virtual_network_subnet_id", PStr "mysubnet"); ("vnet_name", PNone)]
             (PStr "mysubnet") PNone eq_refl eq_refl).
    right. right. repeat split; reflexivity.
  - destruct (C7_subnet_usage_errors resource_id_prefix format_text example_cmd
                [("virtual_network_subnet_id", PStr example_subnet_id); ("vnet_name", PNone)]
                (PStr example_subnet_id) PNone eq_refl eq_refl) as (_ & H).
    destruct H as (_ & H & _); [left; split; reflexivity | exact H].
Defined.

(** C7 as stated fails twice.  The pass-through does not leave the
    namespace unchanged: with a subnet identifier and no vnet name the
    validator returns a namespace without the vnet-name field.  And the two
    combinations it names are not the only ones that raise: a vnet name
    with no subnet raises too. *)
Lemma C7_pass_through_deletes_and_vnet_alone_raises :
  (let ns := [("virtual_network_subnet_id",
               PStr example_subnet_id);
              ("vnet_name", PNone)] in
   validate_subnet resource_id_prefix format_text example_cmd ns
   = (inr tt,
      [("virtual_network_subnet_id",
        PStr example_subnet_id)])
   /\ snd (validate_subnet resource_id_prefix format_text example_cmd ns) <> ns)
  /\
  (let ns := [("virtual_network_subnet_id", PNone); ("vnet_name", PStr "myvnet")] in
   validate_subnet resource_id_prefix format_text example_cmd ns = (inl CLIError, ns)).
Proof.
  split; [split|]; [reflexivity | discriminate | reflexivity].
Qed.

(** C8.  [validate_managed_instance_storage_size] never changes the
    namespace; it returns normally when the storage size is [None], and
    when it is an int divisible by 32, and raises [CLIError] when it is an
    int that is not. *)
Theorem C8_storage_size_in_increments_of_32 (ns : namespace) :
  let result := validate_managed_instance_storage_size ns in
  snd result = ns /\
  (lookup ns "storage_size_in_gb" = Some PNone -> fst result = inr tt) /\
  (forall n : Z,
      lookup ns "storage_size_in_gb" = Some (PInt n) ->
      ((n mod 32 = 0)%Z -> fst result = inr tt) /\
      ((n mod 32 <> 0)%Z -> fst result = inl CLIError)).
Proof.
  intros result. subst result. split; [|split].
  - apply storage_validator_keeps.
  - intros H. now rewrite (storage_validator_on_falsy ns PNone).
  - intros n H. destruct (Z.eqb_spec n 0) as [->|Hn].
    + rewrite (storage_validator_on_falsy ns (PInt 0)) by (assumption || reflexivity).
      split; [reflexivity | intros Hm; now contradiction Hm].
    + rewrite (storage_validator_on_truthy ns (PInt n)); [|assumption|].
      * cbn [py_mod py_eq_zero].
        destruct (Z.eqb_spec (n mod 32) 0) as [Hm|Hm]; cbn [fst].
        -- split; [reflexivity | contradiction].
        -- split; [contradiction | reflexivity].
      * cbn [truthy]. now apply negb_true_iff, Z.eqb_neq.
Qed.

(** C8 at 64, 50 and [None]. *)
Lemma C8_storage_size_in_increments_of_32_witness :
  validate_managed_instance_storage_size [("storage_size_in_gb", PInt 64)]
  = (inr tt, [("storage_size_in_gb", PInt 64)])
  /\ validate_managed_instance_storage_size [("storage_size_in_gb", PInt 50)]
     = (inl CLIError, [("storage_size_in_gb", PInt 50)])
  /\ validate_managed_instance_storage_size [("storage_size_in_gb", PNone)]
     = (inr tt, [("storage_size_in_gb", PNone)]).
Proof.
  split; [|split].
  - destruct (C8_storage_size_in_increments_of_32 [("storage_size_in_gb", PInt 64)])
      as (Hs & _ & H).
    destruct (H 64%Z eq_refl) as (Hok & _).
    rewrite (surjective_pairing (validate_managed_instance_storage_size _)).
    rewrite Hs, (Hok eq_refl). reflexivity.
  - destruct (C8_storage_size_in_increments_of_32 [("storage_size_in_gb", PInt 50)])
      as (Hs & _ & H).
    destruct (H 50%Z eq_refl) as (_ & Hbad).
    rewrite (surjective_pairing (validate_managed_instance_storage_size _)).
    rewrite Hs, Hbad; [reflexivity | discriminate].
  - destruct (C8_storage_size_in_increments_of_32 [("storage_size_in_gb", PNone)])
      as (Hs & Hnone & _).
    rewrite (surjective_pairing (validate_managed_instance_storage_size _)).
    rewrite Hs, (Hnone eq_refl). reflexivity.
Defined.

(** C9.  Whenever [validate_subnet] raises [CLIError], the namespace is
    the one it was given: the subnet field holds what it held and the
    vnet-name field is still there. *)
Theorem C9_usage_error_leaves_namespace
  (is_valid_resource_id : pyval -> bool) (format_value : pyval -> string)
  (cmd : command) (ns : namespace) :
  let result := validate_subnet is_valid_resource_id format_value cmd ns in
  fst result = inl CLIError ->
  snd result = ns
  /\ lookup (snd result) "virtual_network_subnet_id" = lookup ns "virtual_network_subnet_id"
  /\ lookup (snd result) "vnet_name" = lookup ns "vnet_name".
Proof.
  intros result H. subst result.
  rewrite (validate_subnet_raise_keeps _ _ _ ns H). auto.
Qed.

(** C9 at a subnet identifier given together with a vnet name. *)
Lemma C9_usage_error_leaves_namespace_witness :
  snd (validate_subnet resource_id_prefix format_text example_cmd
         [("virtual_network_subnet_id", PStr example_subnet_id);
          ("vnet_name", PStr "myvnet")])
  = [("virtual_network_subnet_id", PStr example_subnet_id);
     ("vnet_name", PStr "myvnet")].
Proof.
  apply (C9_usage_error_leaves_namespace resource_id_prefix format_text example_cmd
           [("virtual_network_subnet_id", PStr example_subnet_id);
            ("vnet_name", PStr "myvnet")]).
  reflexivity.
Defined.

(** C10.  For [--storage], whose converter has base [GB]: an input that
    denotes a positive size below 1 GB converts to the int 0, and on a
    namespace whose storage size is 0 the validator returns normally and
    leaves the namespace as it is, as it does when the size is [None]. *)
Theorem C10_storage_below_one_gb_is_zero (digits u : string) (bytes : Z) :
  all_digits digits = true ->
  size_in_bytes digits u = Some bytes ->
  (0 < bytes < 1024 * 1024 * 1024)%Z ->
  type storage_param_type (digits ++ u) = inr (PInt 0) /\
  forall ns : namespace,
    lookup ns "storage_size_in_gb" = Some (PInt 0) ->
    validator storage_param_type ns = (inr tt, ns) /\
    fst (validator storage_param_type (update ns "storage_size_in_gb" PNone)) = inr tt.
Proof.
  intros Hd Hsize Hbytes. split.
  - assert (Hne : digits <> EmptyString).
    { intros ->. unfold size_in_bytes in Hsize.
      destruct (ladder_multiplier _); [|discriminate].
      injection Hsize as <-. simpl in Hbytes. lia. }
    assert (Hn : (decimal_value 0 digits <= 2 ^ 53)%Z).
    { unfold size_in_bytes in Hsize.
      destruct (ladder_multiplier _) as [mu|] eqn:Hmu; [|discriminate].
      injection Hsize as <-.
      destruct (storage_uvals u mu Hmu) as (a & (Ha & ->) & _).
      assert (0 < 2 ^ a)%Z by (apply Z.pow_pos_nonneg; lia).
      pose proof (decimal_value_nonneg digits 0 ltac:(lia)). nia. }
    cbn [type storage_param_type].
    rewrite (storage_call digits u bytes) by assumption.
    rewrite Z.quot_small by lia. reflexivity.
  - intros ns Hl. cbn [validator storage_param_type]. split.
    + now apply (storage_validator_on_falsy ns (PInt 0)).
    + rewrite (storage_validator_on_falsy _ PNone); [reflexivity | | reflexivity].
      rewrite lookup_update. reflexivity.
Qed.

(** C10 at ["1MB"], ["512kB"] and ["1023B"]. *)
Lemma C10_storage_below_one_gb_is_zero_witness :
  type storage_param_type "1MB" = inr (PInt 0)
  /\ type storage_param_type "512kB" = inr (PInt 0)
  /\ type storage_param_type "1023B" = inr (PInt 0)
  /\ validator storage_param_type [("storage_size_in_gb", PInt 0)]
     = (inr tt, [("storage_size_in_gb", PInt 0)]).
Proof.
  split; [|split; [|split]].
  - apply (C10_storage_below_one_gb_is_zero "1" "MB" (1024 * 1024)%Z);
      [reflexivity | reflexivity | lia].
  - apply (C10_storage_below_one_gb_is_zero "512" "kB" (512 * 1024)%Z);
      [reflexivity | reflexivity | lia].
  - apply (C10_storage_below_one_gb_is_zero "1023" "B" 1023%Z);
      [reflexivity | reflexivity | lia].
  - apply (C10_storage_below_one_gb_is_zero "1" "MB" (1024 * 1024)%Z);
      [reflexivity | reflexivity | lia | reflexivity].
Defined.

(** * Further properties *)

(** ** Further properties of the aggregator *)

Lemma well_formed_delete_all (l : list string) (ns : namespace) :
  well_formed ns = true -> well_formed (delete_all l ns) = true.
Proof.
  intros Hwf. rewrite delete_all_filter by assumption. now apply well_formed_filter.
Qed.

Lemma expansion_validator_well_formed mp dest ty (ns : namespace) :
  well_formed ns = true ->
  well_formed (snd (_expansion_validator_impl mp dest ty ns)) = true.
Proof.
  intros Hwf. rewrite expansion_validator_run by assumption. cbv zeta.
  destruct (existsb truthy _).
  - destruct (construct ty _) as [e|model]; [assumption|]. simpl snd.
    apply well_formed_delete_all. now apply well_formed_update.
  - simpl snd. now apply well_formed_delete_all.
Qed.

(** What the validator raises is what the constructor raised, on the
    keyword arguments collected, and the namespace is then as it was. *)
Lemma expansion_validator_raise mp dest ty (ns : namespace) e :
  well_formed ns = true ->
  fst (_expansion_validator_impl mp dest ty ns) = inl e ->
  construct ty (of_pairs (collected mp ns)) = inl e /\
  _expansion_validator_impl mp dest ty ns = (inl e, ns).
Proof.
  intros Hwf. rewrite expansion_validator_run by assumption. cbv zeta.
  destruct (existsb truthy _); [|discriminate].
  destruct (construct ty _) as [e'|model]; [|discriminate].
  simpl. intros [= ->]. split; reflexivity.
Qed.

Lemma no_flag_left mp dest ty (ns : namespace) k :
  well_formed ns = true ->
  fst (_expansion_validator_impl mp dest ty ns) = inr tt ->
  mem mp k = true -> k <> dest ->
  lookup (snd (_expansion_validator_impl mp dest ty ns)) k = None.
Proof.
  intros Hwf. rewrite expansion_validator_run by assumption. cbv zeta.
  intros Hok Hk Hne.
  assert (Hlookup : forall d : namespace,
             well_formed d = true -> lookup d k = lookup ns k ->
             lookup (delete_all (matched_keys mp ns) d) k = None).
  { intros d Hd Hl. rewrite lookup_delete_all by assumption.
    destruct (existsb (String.eqb k) (matched_keys mp ns)) eqn:E; [reflexivity|].
    rewrite Hl. destruct (lookup ns k) eqn:El; [|reflexivity].
    rewrite existsb_matched in E by (unfold mem; now rewrite El). congruence. }
  destruct (existsb truthy _).
  - destruct (construct ty _) as [e|model]; [discriminate|]. simpl snd.
    apply Hlookup; [now apply well_formed_update|].
    rewrite lookup_update. destruct (String.eqb_spec dest k); [congruence | reflexivity].
  - simpl snd. now apply Hlookup.
Qed.

(** An attribute that is neither a flag of the schema nor the destination
    is not touched. *)
Lemma aggregator_keeps mp dest ty (ns : namespace) k :
  well_formed ns = true -> mem mp k = false -> k <> dest ->
  lookup (snd (_expansion_validator_impl mp dest ty ns)) k = lookup ns k.
Proof.
  intros Hwf Hk Hne. rewrite expansion_validator_run by assumption. cbv zeta.
  assert (Hm : existsb (String.eqb k) (matched_keys mp ns) = false).
  { destruct (existsb _ _) eqn:E; [|reflexivity].
    apply existsb_eqb_In, matched_keys_In in E. destruct E; congruence. }
  destruct (existsb truthy _).
  - destruct (construct ty _) as [e|model]; [reflexivity|]. simpl snd.
    rewrite lookup_delete_all by now apply well_formed_update.
    rewrite Hm, lookup_update.
    destruct (String.eqb_spec dest k); [congruence | reflexivity].
  - simpl snd. rewrite lookup_delete_all by assumption. now rewrite Hm.
Qed.


(** X1.  The validator returns normally, or it raises what the constructor
    raised on some keyword arguments and leaves the namespace as it was.
    Either way an attribute that is neither a flag of the schema nor the
    destination holds afterwards what it held before. *)
Theorem aggregator_frame mp dest ty (ns : namespace) :
  well_formed ns = true ->
  let result := _expansion_validator_impl mp dest ty ns in
  (fst result = inr tt \/
   exists kwargs e, construct ty kwargs = inl e /\ result = (inl e, ns)) /\
  forall k, mem mp k = false -> k <> dest -> lookup (snd result) k = lookup ns k.
Proof.
  intros Hwf result. subst result. split.
  - destruct (fst (_expansion_validator_impl mp dest ty ns)) as [e|[]] eqn:E.
    + right. exists (of_pairs (collected mp ns)), e.
      now apply expansion_validator_raise.
    + now left.
  - intros k Hk Hne. now apply aggregator_keeps.
Qed.

(** X1 at the [Sku] schema: the server name is not touched, neither when
    the [Sku] is built nor when its constructor raises for want of a
    [name]. *)
Lemma aggregator_frame_witness :
  lookup (snd (_expansion_validator_impl (model_properties_of sku_arguments) "sku" Sku
                 [("server_name", PStr "s"); ("capacity", PInt 5); ("name", PStr "S0")]))
         "server_name" = Some (PStr "s")
  /\ lookup (snd (_expansion_validator_impl (model_properties_of sku_arguments) "sku" Sku
                    [("server_name", PStr "s"); ("capacity", PInt 5); ("tier", PNone)]))
            "server_name" = Some (PStr "s").
Proof.
  split.
  - destruct (aggregator_frame (model_properties_of sku_arguments) "sku" Sku
                [("server_name", PStr "s"); ("capacity", PInt 5); ("name", PStr "S0")])
      as (_ & H); [reflexivity|].
    rewrite (H "server_name"); [reflexivity | reflexivity | discriminate].
  - destruct (aggregator_frame (model_properties_of sku_arguments) "sku" Sku
                [("server_name", PStr "s"); ("capacity", PInt 5); ("tier", PNone)])
      as (_ & H); [reflexivity|].
    rewrite (H "server_name"); [reflexivity | reflexivity | discriminate].
Defined.

Lemma matched_keys_nil mp (ns : namespace) :
  (forall k, mem mp k = true -> lookup ns k = None) ->
  matched_keys mp ns = [] /\ collected mp ns = [].
Proof.
  intros H. induction ns as [|[k v] ns IH].
  - split; reflexivity.
  - destruct (mem mp k) eqn:E.
    + specialize (H k E). simpl in H. rewrite String.eqb_refl in H. discriminate.
    + destruct IH as [IH1 IH2].
      { intros k' Hk'. specialize (H k' Hk'). simpl in H.
        destruct (String.eqb_spec k k'); [discriminate | assumption]. }
      unfold matched_keys, collected in *. simpl. rewrite E.
      unfold mem in E. destruct (lookup mp k); [discriminate|].
      split; assumption.
Qed.

(** X2.  When the destination is not a flag of the schema and the
    validator has returned normally, running it again on the namespace it
    produced returns normally and changes nothing: the flags are gone, so
    nothing is collected, the constructor is not called and the
    destination is not assigned again. *)
Theorem aggregator_idempotent mp dest ty (ns : namespace) :
  well_formed ns = true ->
  mem mp dest = false ->
  fst (_expansion_validator_impl mp dest ty ns) = inr tt ->
  let ns' := snd (_expansion_validator_impl mp dest ty ns) in
  _expansion_validator_impl mp dest ty ns' = (inr tt, ns').
Proof.
  intros Hwf Hdest Hok ns'.
  assert (Hwf' : well_formed ns' = true) by now apply expansion_validator_well_formed.
  assert (Hnone : forall k, mem mp k = true -> lookup ns' k = None).
  { intros k Hk. apply no_flag_left; [assumption | assumption | assumption | congruence]. }
  destruct (matched_keys_nil mp ns' Hnone) as [Hm Hc].
  rewrite expansion_validator_run by assumption. cbv zeta.
  rewrite Hm, Hc. reflexivity.
Qed.

(** X2 at the [Sku] schema, after a first run on [capacity=5] and
    [name='S0']. *)
Lemma aggregator_idempotent_witness :
  _expansion_validator_impl (model_properties_of sku_arguments) "sku" Sku
    [("sku", PObj "Sku" [("capacity", PInt 5); ("name", PStr "S0")])]
  = (inr tt, [("sku", PObj "Sku" [("capacity", PInt 5); ("name", PStr "S0")])]).
Proof.
  apply (aggregator_idempotent (model_properties_of sku_arguments) "sku" Sku
           [("capacity", PInt 5); ("name", PStr "S0")]); reflexivity.
Defined.



(** X4.  When the destination is itself a flag of the schema and an
    attribute of the namespace, a validator that returns normally has
    deleted it with the other flags, after any assignment: the
    destination is absent afterwards, whether or not a model was built. *)
Theorem destination_among_flags_is_lost mp dest ty (ns : namespace) :
  well_formed ns = true ->
  mem mp dest = true ->
  mem ns dest = true ->
  let result := _expansion_validator_impl mp dest ty ns in
  fst result = inr tt ->
  lookup (snd result) dest = None.
Proof.
  intros Hwf Hd Hn result. subst result.
  rewrite expansion_validator_run by assumption. cbv zeta.
  assert (Hm : existsb (String.eqb dest) (matched_keys mp ns) = true).
  { apply existsb_eqb_In, matched_keys_In. auto. }
  destruct (existsb truthy _).
  - destruct (construct ty _) as [e|model]; [discriminate|]. intros _. simpl snd.
    rewrite lookup_delete_all by now apply well_formed_update. now rewrite Hm.
  - intros _. simpl snd. rewrite lookup_delete_all by assumption. now rewrite Hm.
Qed.

(** X4 at the [Sku] schema with its flag [name] taken as destination: the
    [Sku] is built and assigned to [name], which the loop then deletes. *)
Lemma destination_among_flags_is_lost_witness :
  lookup (snd (_expansion_validator_impl (model_properties_of sku_arguments) "name" Sku
                 [("capacity", PInt 5); ("name", PStr "S0")]))
         "name" = None.
Proof.
  apply (destination_among_flags_is_lost (model_properties_of sku_arguments) "name" Sku
           [("capacity", PInt 5); ("name", PStr "S0")]); reflexivity.
Defined.

Lemma model_properties_as_pairs (arguments : list argument) :
  model_properties_of arguments =
  of_pairs (map (fun a => (property_key_of a, property_name_of a)) arguments).
Proof.
  unfold model_properties_of, of_pairs. generalize (@nil (string * string)).
  induction arguments as [|a l IH]; intros acc; simpl; [reflexivity | apply IH].
Qed.

Lemma lookup_app {V : Type} (l1 l2 : PyDict.t V) k :
  lookup (l1 ++ l2)%list k =
  match lookup l1 k with Some v => Some v | None => lookup l2 k end.
Proof.
  induction l1 as [|[a b] l1 IH]; simpl; [reflexivity|].
  destruct (String.eqb a k); [reflexivity | apply IH].
Qed.

(** X5.  When several entries of a schema declare the same flag key, the
    validator maps the flag to the property of the last of them: an entry
    after which no entry has its key decides the property of that key. *)
Theorem later_entry_wins (before after : list argument) (a : argument) :
  existsb (String.eqb (property_key_of a)) (map property_key_of after) = false ->
  lookup (model_properties_of (before ++ a :: after)%list) (property_key_of a)
  = Some (property_name_of a).
Proof.
  intros Hafter. rewrite model_properties_as_pairs, lookup_of_pairs.
  rewrite map_app, rev_app_distr. simpl map. simpl rev.
  rewrite lookup_app, lookup_app.
  destruct (lookup (rev (map _ after)) (property_key_of a)) as [q|] eqn:E.
  - exfalso. apply lookup_In, in_rev, in_map_iff in E as (x & Hx & Hin).
    injection Hx as Hk _.
    assert (In (property_key_of a) (map property_key_of after))
      by (rewrite <- Hk; now apply in_map).
    apply existsb_eqb_In in H. congruence.
  - simpl. now rewrite String.eqb_refl.
Qed.

(** X5 at two entries that share the key [name]. *)
Lemma later_entry_wins_witness :
  lookup (model_properties_of
            [ArgPair "server_name" "name"; ArgPair "database_name" "name"; Arg "tier"])
         "name" = Some "database_name".
Proof.
  apply (later_entry_wins [ArgPair "server_name" "name"]
           [Arg "tier"] (ArgPair "database_name" "name")).
  reflexivity.
Defined.

Lemma replace_underscores_clean (s : string) :
  has_char "_" (replace_underscores s) = false
  /\ String.length (replace_underscores s) = String.length s.
Proof.
  induction s as [|c s [IH1 IH2]]; simpl; [split; reflexivity|].
  rewrite IH1, IH2. split; [|reflexivity].
  destruct (Ascii.eqb_spec c "_"%char) as [->|Hne]; [reflexivity|].
  rewrite orb_false_r. now apply Ascii.eqb_neq.
Qed.

(** X6.  [create_args_for_complex_type] registers one flag for each entry
    of the schema, in order and under the entry's key, whether or not a
    destination is given; each flag has a single option, which starts with
    [--], holds no underscore and is two characters longer than the key,
    and each is put in the argument group of the call. *)
Theorem registered_flags dest ty (arguments : list argument) arg_group :
  let extras := fst (create_args_for_complex_type dest ty arguments arg_group) in
  map extra_dest extras = map property_key_of arguments /\
  forall e, In e extras ->
    exists o,
      extra_options_list e = [o]
      /\ String.prefix "--" o = true
      /\ has_char "_" o = false
      /\ String.length o = 2 + String.length (extra_dest e)
      /\ extra_arg_group e = arg_group.
Proof.
  intros extras. subst extras. unfold create_args_for_complex_type. cbn [fst]. split.
  - rewrite map_map. reflexivity.
  - intros e Hin. apply in_map_iff in Hin as (a & <- & _).
    exists ("--" ++ replace_underscores (property_key_of a)).
    destruct (replace_underscores_clean (property_key_of a)) as [Hc Hl].
    cbn [extra_for extra_options_list extra_dest extra_arg_group].
    split; [reflexivity|]. split; [now destruct (replace_underscores _)|].
    split; [simpl; exact Hc|]. split; [simpl; now rewrite Hl | reflexivity].
Qed.

(** X6 at the [JobStepOutput] schema. *)
Lemma registered_flags_witness :
  map extra_dest
      (fst (create_args_for_complex_type "output" JobStepOutput output_arguments
              (Some "Output")))
  = ["output_server_name"; "database_name"; "schema_name"; "table_name";
     "output_credential"].
Proof.
  exact (proj1 (registered_flags "output" JobStepOutput output_arguments (Some "Output"))).
Defined.

(** ** Further properties of the size converter *)

Lemma multiplier_of_error (self : SizeWithUnitConverter) (u : string) e :
  multiplier_of self u = inl e -> e = KeyError.
Proof.
  unfold multiplier_of, getitem. destruct u; [discriminate|].
  destruct (lookup _ _); [discriminate | now intros [= <-]].
Qed.

(** X8.  A converter whose own unit is not empty and is not a key of its
    unit map rejects every input with [ValueError]: the lookup of the base
    multiplier raises the [KeyError] that the handler turns into
    [ValueError], whatever the input. *)
Theorem converter_without_its_unit_rejects_all (self : SizeWithUnitConverter) (value : string) :
  self_unit self <> EmptyString ->
  mem (self_unit_map self) (self_unit self) = false ->
  SizeWithUnitConverter_call self value = inl ValueError.
Proof.
  intros Hne Hmem. unfold SizeWithUnitConverter_call. cbv zeta.
  set (unit_part := slice_from _ value).
  unfold uvals_of.
  destruct (multiplier_of self unit_part) as [e|num] eqn:Hnum.
  - apply multiplier_of_error in Hnum. subst e. reflexivity.
  - cbn [and_then]. unfold multiplier_of at 1, getitem. unfold mem in Hmem.
    destruct (self_unit self); [contradiction|].
    destruct (lookup _ _); [discriminate | reflexivity].
Qed.

(** X8 at the default unit [kB] with a map that lacks it. *)
Lemma converter_without_its_unit_rejects_all_witness :
  SizeWithUnitConverter_call
    (SizeWithUnitConverter_init "kB" int_type (Some [("GB", PInt 1)])) "5GB"
  = inl ValueError.
Proof.
  apply converter_without_its_unit_rejects_all; [discriminate | reflexivity].
Defined.

Lemma lookup_default_unit_map (u : string) (v : pyval) :
  lookup default_unit_map u = Some v ->
  In u ["B"; "kB"; "MB"; "GB"; "TB"].
Proof.
  unfold default_unit_map. cbn [lookup].
  repeat match goal with
         | |- context [String.eqb ?a ?b] =>
             destruct (String.eqb_spec a b) as [<-|_]; [intros _; simpl; tauto|]
         end.
  discriminate.
Qed.

Lemma lookup_storage_unit_map (u : string) (v : pyval) :
  lookup storage_unit_map u = Some v ->
  In u ["B"; "kB"; "MB"; "GB"; "TB"].
Proof.
  unfold storage_unit_map. cbn [lookup].
  repeat match goal with
         | |- context [String.eqb ?a ?b] =>
             destruct (String.eqb_spec a b) as [<-|_]; [intros _; simpl; tauto|]
         end.
  discriminate.
Qed.

Lemma module_uvals (u : string) :
  (uvals_of max_size_bytes_converter u = inl KeyError
   \/ exists f, uvals_of max_size_bytes_converter u = inr f)
  /\ (uvals_of storage_converter u = inl KeyError
      \/ exists f, uvals_of storage_converter u = inr f).
Proof.
  split.
  - destruct u as [|c u]; [right; eexists; vm_compute; reflexivity|].
    destruct (lookup default_unit_map (String c u)) as [v|] eqn:E.
    + apply lookup_default_unit_map in E. simpl in E.
      repeat (destruct E as [E|E]; [rewrite <- E; right; eexists; vm_compute; reflexivity|]).
      contradiction.
    + left. unfold uvals_of, multiplier_of, getitem.
      change (self_unit_map max_size_bytes_converter) with default_unit_map.
      now rewrite E.
  - destruct u as [|c u]; [right; eexists; vm_compute; reflexivity|].
    destruct (lookup storage_unit_map (String c u)) as [v|] eqn:E.
    + apply lookup_storage_unit_map in E. simpl in E.
      repeat (destruct E as [E|E]; [rewrite <- E; right; eexists; vm_compute; reflexivity|]).
      contradiction.
    + left. unfold uvals_of, multiplier_of, getitem.
      change (self_unit_map storage_converter) with storage_unit_map.
      now rewrite E.
Qed.

(** X7.  Both converters of the module reject with [ValueError] every
    input that does not begin with a digit: the empty text, a bare unit
    such as [GB], a number with a sign. *)
Theorem size_without_digits_is_rejected (value : string) :
  takewhile isdigit value = EmptyString ->
  type max_size_bytes_param_type value = inl ValueError
  /\ type storage_param_type value = inl ValueError.
Proof.
  intros Hnum. cbn [type max_size_bytes_param_type storage_param_type].
  unfold SizeWithUnitConverter_call. cbv zeta. rewrite Hnum. cbn [String.length slice_from].
  destruct (module_uvals value) as [[H1|[f1 H1]] [H2|[f2 H2]]];
    rewrite H1, H2; split; reflexivity.
Qed.

(** X7 at a bare unit and at a negative size. *)
Lemma size_without_digits_is_rejected_witness :
  type max_size_bytes_param_type "GB" = inl ValueError
  /\ type storage_param_type "-32" = inl ValueError.
Proof.
  split.
  - apply (size_without_digits_is_rejected "GB"). reflexivity.
  - apply (size_without_digits_is_rejected "-32"). reflexivity.
Defined.

Section OverflowFacts.
Local Open Scope Z_scope.

Lemma shr_1_m (r : shr_record) :
  0 <= shr_m r -> shr_m (shr_1 r) = Z.div2 (shr_m r) /\ 0 <= shr_m (shr_1 r).
Proof.
  destruct r as [m b s]. cbn [shr_m]. intros Hm.
  destruct m as [|[q|q|]|q]; cbn [shr_1 shr_m]; try lia; (split; [reflexivity | lia]).
Qed.

Lemma shr_m_iter (k : positive) (r : shr_record) :
  0 <= shr_m r ->
  shr_m (iter_pos shr_1 k r) = Z.shiftr (shr_m r) (Zpos k)
  /\ 0 <= shr_m (iter_pos shr_1 k r).
Proof.
  revert r. induction k as [k IH|k IH|]; intros r Hr; cbn [iter_pos].
  - destruct (shr_1_m r Hr) as [E1 P1].
    destruct (IH _ P1) as [E2 P2]. destruct (IH _ P2) as [E3 P3].
    split; [|assumption]. rewrite E3, E2, E1.
    rewrite Z.shiftr_shiftr by lia. rewrite Z.div2_spec, Z.shiftr_shiftr by lia.
    f_equal. lia.
  - destruct (IH _ Hr) as [E2 P2]. destruct (IH _ P2) as [E3 P3].
    split; [|assumption]. rewrite E3, E2. rewrite Z.shiftr_shiftr by lia. f_equal. lia.
  - destruct (shr_1_m r Hr) as [E1 P1]. split; [|assumption].
    rewrite E1, Z.div2_spec. reflexivity.
Qed.

Lemma digits2_pos_ge (q : positive) (k : Z) :
  2 ^ (k - 1) <= Zpos q -> 1 <= k -> k <= Zpos (digits2_pos q).
Proof.
  intros H Hk. destruct (digits2_pos_bound q) as [_ Hhi].
  destruct (Z_le_gt_dec k (Zpos (digits2_pos q))) as [|Hgt]; [assumption|].
  exfalso. assert (2 ^ Zpos (digits2_pos q) <= 2 ^ (k - 1)) by (apply Z.pow_le_mono_r; lia).
  lia.
Qed.

Lemma round_nearest_even_bounds (m : Z) (l : location) :
  m <= round_nearest_even m l <= m + 1.
Proof.
  destruct l as [|[| |]]; cbn [round_nearest_even]; try lia.
  destruct (Z.even m); lia.
Qed.

Lemma shiftr_lower (a k j : Z) :
  0 <= k -> 0 <= j -> 2 ^ (j + k) <= a -> 2 ^ j <= Z.shiftr a k.
Proof.
  intros Hk Hj Ha. rewrite Z.shiftr_div_pow2 by lia.
  apply Z.div_le_lower_bound; [apply Z.pow_pos_nonneg; lia|].
  rewrite Z.pow_add_r in Ha by lia. lia.
Qed.

(** An int of 2^1024 or more has no float. *)
Lemma float_of_int_overflow (n : Z) :
  2 ^ 1024 <= n -> float_of_int n = inl OverflowError.
Proof.
  intros Hn. destruct n as [|p|p]; try lia.
  set (d := Zpos (digits2_pos p)).
  assert (Hd : 1025 <= d) by (apply digits2_pos_ge; lia).
  destruct (digits2_pos_bound p) as [Hlo Hhi]. fold d in Hlo, Hhi.
  unfold float_of_int, binary_normalize, binary_round. stdlib_names. fold d.
  assert (Hf : fexp prec emax (d + 0) = d - 53).
  { unfold fexp, emin, prec, emax. lia. }
  rewrite Hf. unfold shl_align. stdlib_names.
  destruct (d - 53 - 0) as [|k|k] eqn:Hk; try lia.
  unfold binary_round_aux, shr_fexp. stdlib_names.
  cbn [Zdigits2]. fold d. rewrite Hf.
  replace (d - 53 - 0) with (d - 53) in * by lia. rewrite Hk.
  cbn [shr shr_record_of_loc].
  set (r := Build_shr_record (Zpos p) false false).
  destruct (shr_m_iter k r) as [E1 P1]; [cbn; lia|].
  set (mrs' := iter_pos shr_1 k r) in *. cbn [shr_m] in E1. subst r.
  set (m2 := round_nearest_even (shr_m mrs') (loc_of_shr_record mrs')).
  pose proof (round_nearest_even_bounds (shr_m mrs') (loc_of_shr_record mrs')) as Hm2.
  fold m2 in Hm2.
  assert (H52 : 2 ^ 52 <= shr_m mrs').
  { rewrite E1. apply shiftr_lower; try lia.
    replace (52 + Zpos k) with (d - 1) by lia. assumption. }
  destruct m2 as [|q2|q2] eqn:Em2; try lia.
  set (d2 := Zpos (digits2_pos q2)).
  assert (Hd2 : 53 <= d2) by (apply digits2_pos_ge; lia).
  cbn [Zdigits2]. fold d2.
  assert (Hg : fexp prec emax (d2 + (0 + Zpos k)) - (0 + Zpos k) = d2 - 53).
  { unfold fexp, emin, prec, emax. lia. }
  rewrite Hg.
  destruct (d2 - 53) as [|k2|k2] eqn:Hk2; try lia; cbn [shr shr_m].
  - unfold emax, prec. destruct (Z.leb_spec (0 + Zpos k) (1024 - 53)); [lia | reflexivity].
  - destruct (shr_m_iter k2 (Build_shr_record (Zpos q2) false false)) as [E2 P2]; [cbn; lia|].
    cbn [shr_m] in E2.
    assert (H2 : 2 ^ 52 <= Z.shiftr (Zpos q2) (Zpos k2)).
    { apply shiftr_lower; try lia.
      destruct (digits2_pos_bound q2) as [Hlo2 _]. fold d2 in Hlo2.
      replace (52 + Zpos k2) with (d2 - 1) by lia. assumption. }
    rewrite <- E2 in H2.
    destruct (shr_m (iter_pos shr_1 k2 _)) as [|q3|q3]; try lia.
    unfold emax, prec.
    destruct (Z.leb_spec (0 + Zpos k + Zpos k2) (1024 - 53)); [lia | reflexivity].
Qed.

End OverflowFacts.

(** X9.  With an int result type and a unit that resolves, a numeric part
    of [2^1024] or more, written with at most 4300 digits, makes the
    converter raise [OverflowError], not [ValueError]: the int cannot be
    converted for the float product, and the handler catches [KeyError]
    only.  The bound on the digits is the default limit of the
    interpreter on the length of a string that [int] converts; a longer
    numeric part is outside this property. *)
Theorem size_beyond_floats_overflows
  (self : SizeWithUnitConverter) (digits rest : string) (f : spec_float) :
  all_digits digits = true ->
  (String.length digits <= 4300)%nat ->
  starts_without_digit rest = true ->
  (2 ^ 1024 <= decimal_value 0 digits)%Z ->
  self_result_type self = int_type ->
  uvals_of self rest = inr f ->
  SizeWithUnitConverter_call self (digits ++ rest) = inl OverflowError.
Proof.
  intros Hd _ Hr Hn Hrt Hu.
  assert (Hne : digits <> EmptyString) by (intros ->; simpl in Hn; lia).
  rewrite call_split by assumption. rewrite Hu, Hrt. cbn [and_then].
  rewrite convert_str_digits by assumption. cbn [and_then].
  unfold float_mul, as_float. rewrite float_of_int_overflow by assumption.
  reflexivity.
Qed.

(** X9 at [10^309] bytes and at [10^309] terabytes. *)
Lemma size_beyond_floats_overflows_witness :
  type max_size_bytes_param_type ten_to_the_309 = inl OverflowError
  /\ type max_size_bytes_param_type (ten_to_the_309 ++ "TB") = inl OverflowError.
Proof.
  split.
  - cbn [type max_size_bytes_param_type].
    rewrite <- (append_empty ten_to_the_309).
    apply (size_beyond_floats_overflows max_size_bytes_converter ten_to_the_309 EmptyString
             (pow2_float 0)); try reflexivity.
    + apply Nat.leb_le. reflexivity.
    + vm_compute. discriminate.
  - apply (size_beyond_floats_overflows max_size_bytes_converter ten_to_the_309 "TB"
             (pow2_float 40)); try reflexivity.
    + apply Nat.leb_le. reflexivity.
    + vm_compute. discriminate.
Defined.

(** ** The text of a converter *)

Section ReprFacts.
Variable py_lt : pyval -> pyval -> bool.

Lemma insert_unit_perm (x : string * pyval) (l : list (string * pyval)) :
  Permutation (insert_unit py_lt x l) (x :: l).
Proof.
  induction l as [|y l IH]; simpl; [reflexivity|].
  destruct (py_lt (snd x) (snd y)); [reflexivity|].
  rewrite IH. apply perm_swap.
Qed.


Lemma ordered_by_spec (vs : list pyval) :
  ordered_by py_lt vs = true ->
  (forall a b, In a vs -> In b vs -> py_lt a b = true -> py_lt b a = false)
  /\ (forall a b c, In a vs -> In b vs -> In c vs ->
        py_lt b a = false -> py_lt c b = false -> py_lt c a = false).
Proof.
  unfold ordered_by. rewrite forallb_forall. intros H. split.
  - intros a b Ha Hb Hab. specialize (H a Ha). rewrite forallb_forall in H.
    specialize (H b Hb). apply andb_true_iff in H as [H _].
    rewrite Hab in H. simpl in H. now apply negb_true_iff.
  - intros a b c Ha Hb Hc Hba Hcb. specialize (H a Ha). rewrite forallb_forall in H.
    specialize (H b Hb). apply andb_true_iff in H as [_ H].
    rewrite forallb_forall in H. specialize (H c Hc).
    rewrite Hba, Hcb in H. simpl in H. now apply negb_true_iff.
Qed.

Lemma insert_unit_sorted (vs : list pyval) (x : string * pyval) (l : list (string * pyval)) :
  ordered_by py_lt vs = true ->
  In (snd x) vs -> (forall y, In y l -> In (snd y) vs) ->
  StronglySorted (not_greater py_lt) l ->
  StronglySorted (not_greater py_lt) (insert_unit py_lt x l).
Proof.
  intros Hord Hx Hl Hs. destruct (ordered_by_spec vs Hord) as [Hasym Htrans].
  induction Hs as [|y l Hs IH Hall]; simpl.
  - constructor; constructor.
  - destruct (py_lt (snd x) (snd y)) eqn:E.
    + constructor; [now constructor|]. constructor.
      * apply Hasym; auto. apply Hl. now left.
      * rewrite Forall_forall in *. intros z Hz. unfold not_greater.
        apply (Htrans (snd x) (snd y) (snd z)); auto.
        -- apply Hl. now left.
        -- apply Hl. now right.
        -- apply Hasym; auto. apply Hl. now left.
        -- now apply Hall.
    + constructor.
      * apply IH. intros z Hz. apply Hl. now right.
      * rewrite Forall_forall in *. intros z Hz.
        apply (Permutation_in _ (insert_unit_perm x l)) in Hz.
        destruct Hz as [<-|Hz]; [exact E | now apply Hall].
Qed.

Lemma sorted_units_sorted (unit_map : PyDict.t pyval) :
  ordered_by py_lt (values unit_map) = true ->
  StronglySorted (not_greater py_lt) (sorted_units py_lt unit_map).
Proof.
  intros Hord. unfold sorted_units.
  assert (H : forall (todo acc : list (string * pyval)),
             (forall y, In y todo -> In (snd y) (values unit_map)) ->
             (forall y, In y acc -> In (snd y) (values unit_map)) ->
             StronglySorted (not_greater py_lt) acc ->
             StronglySorted (not_greater py_lt)
               (fold_left (fun acc x => insert_unit py_lt x acc) todo acc)).
  { induction todo as [|x todo IH]; intros acc Ht Ha Hs; simpl; [assumption|].
    apply IH.
    - intros y Hy. apply Ht. now right.
    - intros y Hy. apply (Permutation_in _ (insert_unit_perm x acc)) in Hy.
      destruct Hy as [<-|Hy]; [apply Ht; now left | now apply Ha].
    - apply (insert_unit_sorted (values unit_map)); auto. apply Ht. now left. }
  apply H; [| intros y [] | constructor].
  intros y Hy. unfold values. now apply in_map.
Qed.

End ReprFacts.


(** X12.  When the comparison orders the multipliers of the unit map,
    [__repr__] lists the units by multiplier: no unit is followed, next to
    it or later, by a unit of smaller multiplier. *)
Theorem repr_lists_units_by_multiplier
  (py_lt : pyval -> pyval -> bool) (self : SizeWithUnitConverter) :
  ordered_by py_lt (values (self_unit_map self)) = true ->
  StronglySorted (fun a b => py_lt (snd b) (snd a) = false)
                 (sorted_units py_lt (self_unit_map self)).
Proof.
  intros H. now apply sorted_units_sorted.
Qed.

(** X12 at the unit map of [--storage], whose multipliers are floats and
    ints. *)
Lemma repr_lists_units_by_multiplier_witness :
  StronglySorted (fun a b => num_lt (snd b) (snd a) = false)
                 (sorted_units num_lt (self_unit_map storage_converter)).
Proof.
  apply (repr_lists_units_by_multiplier num_lt storage_converter).
  vm_compute. reflexivity.
Defined.

Example reprs :
  SizeWithUnitConverter_repr num_lt max_size_bytes_converter
  = "Size (in B) - valid units are B, kB, MB, GB, TB."
  /\ SizeWithUnitConverter_repr num_lt storage_converter
     = "Size (in GB) - valid units are B, kB, MB, GB, TB."
  /\ SizeWithUnitConverter_repr num_lt
       (SizeWithUnitConverter_init "kB" int_type
          (Some [("TB", PInt 1024); ("MB", PFloat (one_over 1024)); ("GB", PInt 1)]))
     = "Size (in kB) - valid units are MB, GB, TB.".
Proof. repeat split; vm_compute; reflexivity. Qed.


(** ** The parameters of the create commands *)

(** X13.  [_configure_db_create_params] raises exactly when the engine is
    [dw] and the create mode is none of [default], [point_in_time_restore]
    and [restore]; what it raises is [ValueError], before any registration;
    for the engine [db] it goes through whatever the create mode. *)
Theorem db_create_params_error
  (database_class sku_class : model_class) (engine : Engine.t) (create_mode : CreateMode.t) :
  (_configure_db_create_params database_class sku_class engine create_mode = inl ValueError
   <-> engine = Engine.dw
       /\ create_mode <> CreateMode.default
       /\ create_mode <> CreateMode.point_in_time_restore
       /\ create_mode <> CreateMode.restore)
  /\ (forall e, _configure_db_create_params database_class sku_class engine create_mode = inl e
                -> e = ValueError)
  /\ (engine = Engine.db ->
      exists log, _configure_db_create_params database_class sku_class engine create_mode
                  = inr log).
Proof.
  split; [|split].
  - destruct engine, create_mode; cbn; split;
      try discriminate; try (intros (? & ? & ? & ?); congruence);
      try (intros _; repeat split; discriminate); try reflexivity.
  - intros e. unfold _configure_db_create_params.
    destruct (_ && _); [now intros [= <-] | discriminate].
  - intros ->. unfold _configure_db_create_params. cbn [Engine.eqb andb]. eexists. reflexivity.
Qed.

(** X13 at a data warehouse copy. *)
Lemma db_create_params_error_witness :
  _configure_db_create_params Database Sku Engine.dw CreateMode.copy = inl ValueError.
Proof.
  apply (proj1 (db_create_params_error Database Sku Engine.dw CreateMode.copy)).
  repeat split; discriminate.
Defined.

(** X14.  Which parameters a call of [_configure_db_create_params] ignores:
    the sample name, catalog collation and read scale unless it is the
    default creation of a [db]; the restore point and deletion date unless
    it restores; the collation and maximum size when it copies or restores;
    the tier when it copies or the engine is [dw]; the elastic pool,
    license type, family and capacity exactly for [dw]; never the service
    objective, the sku, the tags, the zone redundancy or the destination. *)
Theorem db_create_params_ignored
  (database_class sku_class : model_class) (engine : Engine.t) (create_mode : CreateMode.t)
  (log : list registration) :
  _configure_db_create_params database_class sku_class engine create_mode = inr log ->
  let default_db :=
    Engine.eqb engine Engine.db && CreateMode.eqb create_mode CreateMode.default in
  let restoring :=
    mode_in create_mode [CreateMode.restore; CreateMode.point_in_time_restore] in
  let copying := mode_in create_mode [CreateMode.copy; CreateMode.secondary] in
  let is_dw := Engine.eqb engine Engine.dw in
  (forall name, In name ["sample_name"; "catalog_collation"; "read_scale"] ->
                is_ignored name log = negb default_db)
  /\ (forall name, In name ["restore_point_in_time"; "source_database_deletion_date"] ->
                   is_ignored name log = negb restoring)
  /\ (forall name, In name ["collation"; "max_size_bytes"] ->
                   is_ignored name log = copying || restoring)
  /\ is_ignored "tier" log = copying || is_dw
  /\ (forall name, In name ["elastic_pool_id"; "license_type"; "family"; "capacity"] ->
                   is_ignored name log = is_dw)
  /\ (forall name, In name ["name"; "sku"; "tags"; "zone_redundant"; "parameters"] ->
                   is_ignored name log = false).
Proof.
  intros Hlog. cbv zeta.
  assert (Hi : ignored log =
    ((if negb (CreateMode.eqb create_mode CreateMode.default)
         || negb (Engine.eqb engine Engine.db)
      then ["sample_name"; "catalog_collation"; "read_scale"] else [])
     ++ (if negb (mode_in create_mode [CreateMode.restore; CreateMode.point_in_time_restore])
         then ["restore_point_in_time"; "source_database_deletion_date"] else [])
     ++ (if mode_in create_mode [CreateMode.copy; CreateMode.secondary]
         then ["collation"; "tier"; "max_size_bytes"] else [])
     ++ (if mode_in create_mode [CreateMode.restore; CreateMode.point_in_time_restore]
         then ["collation"; "max_size_bytes"] else [])
     ++ (if Engine.eqb engine Engine.dw
         then ["elastic_pool_id"; "tier"; "license_type"; "family"; "capacity"] else []))%list).
  { unfold _configure_db_create_params in Hlog.
    destruct (_ && _); [discriminate|]. injection Hlog as <-.
    destruct engine, create_mode; reflexivity. }
  unfold is_ignored. rewrite Hi. clear Hi Hlog.
  repeat split;
    try (intros name Hin; simpl in Hin;
         repeat (destruct Hin as [<-|Hin]; [|try contradiction]));
    destruct engine, create_mode; reflexivity.
Qed.

(** X14 at [sql db copy]. *)
Lemma db_create_params_ignored_witness :
  exists log,
    _configure_db_create_params Database Sku Engine.db CreateMode.copy = inr log
    /\ is_ignored "collation" log = true
    /\ is_ignored "tier" log = true
    /\ is_ignored "capacity" log = false.
Proof.
  eexists. split; [reflexivity|].
  match goal with
  | |- is_ignored _ ?log = _ /\ _ =>
      destruct (db_create_params_ignored Database Sku Engine.db CreateMode.copy log eq_refl)
        as (_ & _ & Hc & Ht & Hd & _)
  end.
  split; [|split].
  - rewrite (Hc "collation"); [reflexivity | simpl; auto].
  - rewrite Ht. reflexivity.
  - rewrite (Hd "capacity"); [reflexivity | simpl; auto].
Defined.

(** X15.  Every name that [_configure_db_create_params] ignores, except
    [read_scale], is a flag that the same call has registered from the
    [Database] or the [Sku] schema. *)
Theorem db_create_params_ignores_its_flags
  (database_class sku_class : model_class) (engine : Engine.t) (create_mode : CreateMode.t)
  (log : list registration) (name : string) :
  _configure_db_create_params database_class sku_class engine create_mode = inr log ->
  In name (ignored log) ->
  name = "read_scale" \/ In name (flags log).
Proof.
  intros Hlog Hin. unfold _configure_db_create_params in Hlog.
  destruct (_ && _); [discriminate|]. injection Hlog as <-.
  destruct engine, create_mode; cbn in Hin |- *;
    repeat (destruct Hin as [Hin|Hin]; [rewrite <- Hin; tauto|]); contradiction.
Qed.

(** X15 at [sql dw create] and the ignored [family]. *)
Lemma db_create_params_ignores_its_flags_witness :
  exists log,
    _configure_db_create_params Database Sku Engine.dw CreateMode.default = inr log
    /\ In "family" (flags log).
Proof.
  eexists. split; [reflexivity|].
  match goal with
  | |- In _ (flags ?log) =>
      destruct (db_create_params_ignores_its_flags Database Sku Engine.dw CreateMode.default
                  log "family" eq_refl) as [H|H]
  end.
  - simpl. tauto.
  - discriminate H.
  - exact H.
Defined.

(** X16.  None of the calls of [_configure_db_create_params] in
    [load_arguments] raises; each registers the eleven flags of the
    [Database] schema and the four of the [Sku] schema; the restore point
    is kept for [sql db restore] only and the sample name for
    [sql db create] only. *)
Theorem db_create_commands_are_configured
  (database_class sku_class : model_class) (command : string)
  (engine : Engine.t) (create_mode : CreateMode.t) :
  In (command, engine, create_mode) db_create_commands ->
  exists log,
    _configure_db_create_params database_class sku_class engine create_mode = inr log
    /\ flags log = ["catalog_collation"; "collation"; "elastic_pool_id"; "license_type";
                    "max_size_bytes"; "restore_point_in_time"; "sample_name"; "sku";
                    "source_database_deletion_date"; "tags"; "zone_redundant";
                    "capacity"; "family"; "name"; "tier"]
    /\ is_ignored "restore_point_in_time" log = negb (String.eqb command "sql db restore")
    /\ is_ignored "sample_name" log = negb (String.eqb command "sql db create").
Proof.
  intros Hin. simpl in Hin.
  repeat (destruct Hin as [Hin|Hin];
          [injection Hin as <- <- <-; eexists; split; [reflexivity|];
           split; [reflexivity|]; split; reflexivity|]).
  contradiction.
Qed.

(** X16 at [sql dw create]. *)
Lemma db_create_commands_are_configured_witness :
  exists log,
    _configure_db_create_params Database Sku Engine.dw CreateMode.default = inr log
    /\ is_ignored "sample_name" log = true.
Proof.
  destruct (db_create_commands_are_configured Database Sku "sql dw create"
              Engine.dw CreateMode.default) as (log & Hlog & _ & _ & Hs).
  - simpl. tauto.
  - exists log. split; [exact Hlog | exact Hs].
Defined.

(** ** Further properties of the validators *)

Section SubnetMore.
Variable is_valid_resource_id : pyval -> bool.
Variable format_value : pyval -> string.
Variable cmd : command.

Lemma validate_subnet_missing (ns : namespace) :
  lookup ns "virtual_network_subnet_id" = None \/ lookup ns "vnet_name" = None ->
  validate_subnet is_valid_resource_id format_value cmd ns = (inl AttributeError, ns).
Proof.
  unfold validate_subnet, bind, getattr.
  intros [H|H].
  - now rewrite H.
  - destruct (lookup ns "virtual_network_subnet_id"); [now rewrite H | reflexivity].
Qed.

Lemma validate_subnet_outcomes (ns : namespace) :
  (exists e, validate_subnet is_valid_resource_id format_value cmd ns = (inl e, ns))
  \/ validate_subnet is_valid_resource_id format_value cmd ns = (inr tt, delete ns "vnet_name")
  \/ exists rid, validate_subnet is_valid_resource_id format_value cmd ns = (inr tt, delete (update ns "virtual_network_subnet_id" (PStr rid))
                                          "vnet_name").
Proof.
  destruct (lookup ns "virtual_network_subnet_id") as [subnet|] eqn:Hs;
    [|left; eexists; apply validate_subnet_missing; auto].
  destruct (lookup ns "vnet_name") as [vnet|] eqn:Hv;
    [|left; eexists; apply validate_subnet_missing; auto].
  rewrite (validate_subnet_run _ _ _ ns subnet vnet Hs Hv).
  destruct (_ || _); [right; left; reflexivity|].
  destruct (_ && _); [|left; eexists; reflexivity].
  destruct (lookup ns "resource_group_name"); [|left; eexists; reflexivity].
  right. right. eexists. reflexivity.
Qed.

End SubnetMore.

(** X17.  Whatever [validate_subnet] raises, it raises before it changes
    anything: with [CLIError], and with the [AttributeError] of a namespace
    that lacks the subnet, the vnet name or, when the identifier is to be
    built, the resource group, the namespace is the one it was given. *)
Theorem validate_subnet_raise_is_clean
  (is_valid_resource_id : pyval -> bool) (format_value : pyval -> string)
  (cmd : command) (ns : namespace) (e : exn) :
  fst (validate_subnet is_valid_resource_id format_value cmd ns) = inl e ->
  snd (validate_subnet is_valid_resource_id format_value cmd ns) = ns.
Proof.
  destruct (validate_subnet_outcomes is_valid_resource_id format_value cmd ns)
    as [[e' H]|[H|[rid H]]]; rewrite H; [reflexivity | discriminate | discriminate].
Qed.

(** X17 at a subnet name and a vnet name without a resource group. *)
Lemma validate_subnet_raise_is_clean_witness :
  snd (validate_subnet resource_id_prefix format_text example_cmd
         [("virtual_network_subnet_id", PStr "mysubnet"); ("vnet_name", PStr "myvnet")])
  = [("virtual_network_subnet_id", PStr "mysubnet"); ("vnet_name", PStr "myvnet")].
Proof.
  apply (validate_subnet_raise_is_clean resource_id_prefix format_text example_cmd
           [("virtual_network_subnet_id", PStr "mysubnet"); ("vnet_name", PStr "myvnet")]
           AttributeError).
  reflexivity.
Defined.

(** X18.  [validate_subnet] touches the subnet and the vnet name only:
    every other attribute holds afterwards what it held before, whether
    the validator returns or raises. *)
Theorem validate_subnet_frame
  (is_valid_resource_id : pyval -> bool) (format_value : pyval -> string)
  (cmd : command) (ns : namespace) (k : string) :
  k <> "virtual_network_subnet_id" -> k <> "vnet_name" ->
  lookup (snd (validate_subnet is_valid_resource_id format_value cmd ns)) k = lookup ns k.
Proof.
  intros H1 H2.
  destruct (validate_subnet_outcomes is_valid_resource_id format_value cmd ns)
    as [[e' H]|[H|[rid H]]]; rewrite H; cbn [snd].
  - reflexivity.
  - apply lookup_delete_other. congruence.
  - rewrite lookup_delete_other by congruence. rewrite lookup_update.
    destruct (String.eqb_spec "virtual_network_subnet_id" k); [congruence | reflexivity].
Qed.

(** X18 at the resource group of a namespace whose subnet is rewritten. *)
Lemma validate_subnet_frame_witness :
  lookup (snd (validate_subnet resource_id_prefix format_text example_cmd
                 [("resource_group_name", PStr "RG");
                  ("virtual_network_subnet_id", PStr "mysubnet");
                  ("vnet_name", PStr "myvnet")]))
         "resource_group_name" = Some (PStr "RG").
Proof.
  rewrite (validate_subnet_frame resource_id_prefix format_text example_cmd
             [("resource_group_name", PStr "RG");
              ("virtual_network_subnet_id", PStr "mysubnet");
              ("vnet_name", PStr "myvnet")] "resource_group_name");
    [reflexivity | discriminate | discriminate].
Defined.

(** X19.  After [validate_subnet] has returned normally the vnet name is
    gone from the namespace, so a second run on that namespace raises
    [AttributeError] and leaves it as it is. *)
Theorem validate_subnet_runs_once
  (is_valid_resource_id : pyval -> bool) (format_value : pyval -> string)
  (cmd : command) (ns : namespace) :
  well_formed ns = true ->
  fst (validate_subnet is_valid_resource_id format_value cmd ns) = inr tt ->
  let ns' := snd (validate_subnet is_valid_resource_id format_value cmd ns) in
  lookup ns' "vnet_name" = None
  /\ validate_subnet is_valid_resource_id format_value cmd ns' = (inl AttributeError, ns').
Proof.
  intros Hwf Hok ns'.
  assert (Hgone : lookup ns' "vnet_name" = None).
  { subst ns'.
    destruct (validate_subnet_outcomes is_valid_resource_id format_value cmd ns)
      as [[e' H]|[H|[rid H]]]; rewrite H in *; cbn [fst snd] in *; [discriminate| |].
    - rewrite delete_filter by assumption.
      now rewrite (lookup_filter_key (fun k => negb (String.eqb k "vnet_name"))).
    - rewrite delete_filter by now apply well_formed_update.
      now rewrite (lookup_filter_key (fun k => negb (String.eqb k "vnet_name"))). }
  split; [assumption|]. apply validate_subnet_missing. now right.
Qed.

(** X19 at a subnet identifier without vnet name. *)
Lemma validate_subnet_runs_once_witness :
  validate_subnet resource_id_prefix format_text example_cmd
    [("virtual_network_subnet_id", PStr example_subnet_id)]
  = (inl AttributeError, [("virtual_network_subnet_id", PStr example_subnet_id)]).
Proof.
  apply (validate_subnet_runs_once resource_id_prefix format_text example_cmd
           [("virtual_network_subnet_id", PStr example_subnet_id); ("vnet_name", PNone)]);
    reflexivity.
Defined.

(** X10.  The converter and the validator of [--storage] together: a size
    whose numeric part is at most [2^53] is stored as its whole gigabytes,
    and on a namespace that holds them the validator returns normally
    exactly when they are a multiple of 32, raises [CLIError] otherwise,
    and leaves the namespace as it is; a size in [TB] is always accepted. *)
Theorem storage_flag_accepts_multiples_of_32
  (digits u : string) (bytes : Z) (ns : namespace) :
  all_digits digits = true ->
  digits <> EmptyString ->
  (decimal_value 0 digits <= 2 ^ 53)%Z ->
  size_in_bytes digits u = Some bytes ->
  let gb := Z.quot bytes (1024 * 1024 * 1024) in
  lookup ns "storage_size_in_gb" = Some (PInt gb) ->
  type storage_param_type (digits ++ u) = inr (PInt gb)
  /\ validator storage_param_type ns
     = (if (gb mod 32 =? 0)%Z then inr tt else inl CLIError, ns)
  /\ (u = "TB" -> fst (validator storage_param_type ns) = inr tt).
Proof.
  intros Hd Hne Hn Hsize gb Hl.
  assert (Hv : validator storage_param_type ns
               = (if (gb mod 32 =? 0)%Z then inr tt else inl CLIError, ns)).
  { cbn [validator storage_param_type].
    destruct (Z.eqb_spec gb 0) as [E|E].
    - rewrite (storage_validator_on_falsy ns (PInt gb)); [now rewrite E | assumption |].
      now rewrite E.
    - rewrite (storage_validator_on_truthy ns (PInt gb)); [|assumption|].
      + cbn [py_mod py_eq_zero]. now destruct (gb mod 32 =? 0)%Z.
      + cbn [truthy]. now apply negb_true_iff, Z.eqb_neq. }
  split; [|split].
  - cbn [type storage_param_type]. now apply storage_call.
  - exact Hv.
  - intros ->. rewrite Hv. unfold size_in_bytes in Hsize. cbn in Hsize.
    injection Hsize as Hb.
    assert (Hgb : gb = (decimal_value 0 digits * 1024)%Z).
    { subst gb. rewrite <- Hb.
      replace (decimal_value 0 digits * 1099511627776)%Z
        with (decimal_value 0 digits * 1024 * (1024 * 1024 * 1024))%Z by lia.
      apply Z.quot_mul. lia. }
    assert (Hm : (gb mod 32 = 0)%Z).
    { rewrite Hgb. replace (decimal_value 0 digits * 1024)%Z
        with (decimal_value 0 digits * 32 * 32)%Z by lia.
      apply Z.mod_mul. lia. }
    rewrite Hm. reflexivity.
Qed.

(** X10 at ["2TB"], accepted as 2048 GB, and at ["48"], refused. *)
Lemma storage_flag_accepts_multiples_of_32_witness :
  validator storage_param_type [("storage_size_in_gb", PInt 2048)]
  = (inr tt, [("storage_size_in_gb", PInt 2048)])
  /\ validator storage_param_type [("storage_size_in_gb", PInt 48)]
     = (inl CLIError, [("storage_size_in_gb", PInt 48)]).
Proof.
  split.
  - destruct (storage_flag_accepts_multiples_of_32 "2" "TB" (2 * 1099511627776)%Z
                [("storage_size_in_gb", PInt 2048)]) as (_ & H & _).
    + reflexivity.
    + discriminate.
    + vm_compute. discriminate.
    + reflexivity.
    + reflexivity.
    + exact H.
  - destruct (storage_flag_accepts_multiples_of_32 "48" EmptyString (48 * 1073741824)%Z
                [("storage_size_in_gb", PInt 48)]) as (_ & H & _).
    + reflexivity.
    + discriminate.
    + vm_compute. discriminate.
    + reflexivity.
    + reflexivity.
    + exact H.
Defined.
